(** * Bedrock converse adapter: model resolution, request composition, pricing

    A shallow embedding of [backend/app/bedrock.py]:
    [get_model_id], [_get_converse_supported_format],
    [_convert_to_valid_file_name], [compose_args_for_converse_api] (with its
    inner [process_content]) and [calculate_price].

    Conventions.
    - A Python [str] is the list of its Unicode code points ([pystr]); the
      literals of the source are written [py "..."].
    - A raised exception is the [Raise] outcome of the [result] monad; the
      first exception in Python's evaluation order wins.
    - A [dict] received from outside (pricing table, generation config) is a
      [gmap]; a dict literal built by the code is the association list of its
      items, in source order.
    - Calls to [logger] have no effect on the returned value and are left out. *)

From stdpp Require Import gmap strings list fin_maps.
From Stdlib Require Import ZArith NArith Ascii.
From Stdlib Require Strings.Byte QArith.

Local Open Scope string_scope.
Local Open Scope list_scope.
Local Open Scope N_scope.
Local Open Scope nat_scope.

(** ** Python strings *)

Abbreviation pystr := (list N) (only parsing).

(** The code points of an ASCII literal. *)
Definition py (s : string) : pystr := N_of_ascii <$> String.list_ascii_of_string s.
Arguments py : simpl never.

(** Truth value of a [str]: only the empty string is falsy. *)
Definition str_truthy (s : pystr) : bool :=
  match s with [] => false | _ :: _ => true end.

(** Truth value of a [str | None]. *)
Definition opt_truthy (o : option pystr) : bool :=
  match o with None => false | Some s => str_truthy s end.

(** ** Exceptions and the error monad *)

Inductive exn : Type :=
| ValueError (msg : pystr)
| NotImplementedError (msg : pystr)
| KeyError (key : pystr)
| IndexError
| TypeError
| DecodeError.

Inductive result (A : Type) : Type :=
| Ok (a : A)
| Raise (e : exn).
Arguments Ok {A} a.
Arguments Raise {A} e.

Definition rbind {A B} (r : result A) (k : A → result B) : result B :=
  match r with
  | Ok a => k a
  | Raise e => Raise e
  end.

Notation "'let*' x ':=' r 'in' k" := (rbind r (fun x => k))
  (at level 10, x name, r at level 100, k at level 200).

Definition raises {A} (r : result A) : Prop := ∃ e, r = Raise e.
Definition returns {A} (r : result A) : Prop := ∃ a, r = Ok a.

(** [[f(x) for x in l]]: left to right, the first exception aborts. *)
Fixpoint rmap {A B} (f : A → result B) (l : list A) : result (list B) :=
  match l with
  | [] => Ok []
  | x :: l' => let* y := f x in let* ys := rmap f l' in Ok (y :: ys)
  end.

(** ** Model resolver *)

Module Resolver.

(* Ref: https://docs.aws.amazon.com/bedrock/latest/userguide/model-ids-arns.html *)
Definition base_model_ids : gmap pystr pystr :=
  list_to_map
    [ (py "claude-v2", py "anthropic.claude-v2:1");
      (py "claude-instant-v1", py "anthropic.claude-instant-v1");
      (py "claude-v3-sonnet", py "anthropic.claude-3-sonnet-20240229-v1:0");
      (py "claude-v3-haiku", py "anthropic.claude-3-haiku-20240307-v1:0");
      (py "claude-v3-opus", py "anthropic.claude-3-opus-20240229-v1:0");
      (py "claude-v3.5-sonnet", py "anthropic.claude-3-5-sonnet-20240620-v1:0");
      (py "claude-v3.5-sonnet-v2", py "anthropic.claude-3-5-sonnet-20241022-v2:0");
      (py "claude-v3.5-haiku", py "anthropic.claude-3-5-haiku-20241022-v1:0");
      (py "mistral-7b-instruct", py "mistral.mistral-7b-instruct-v0:2");
      (py "mixtral-8x7b-instruct", py "mistral.mixtral-8x7b-instruct-v0:1");
      (py "mistral-large", py "mistral.mistral-large-2402-v1:0") ].

(* Ref: https://docs.aws.amazon.com/bedrock/latest/userguide/cross-region-inference-support.html *)
Definition cross_region_models : list pystr :=
  [ py "claude-v3-sonnet";
    py "claude-v3-haiku";
    py "claude-v3-opus";
    py "claude-v3.5-sonnet";
    py "claude-v3.5-sonnet-v2";
    py "claude-v3.5-haiku" ].

Definition cross_region_inference_models : gset pystr :=
  list_to_set cross_region_models.

Definition supported_region_prefixes : gmap pystr pystr :=
  list_to_map
    [ (py "us-east-1", py "us");
      (py "us-west-2", py "us");
      (py "eu-west-1", py "eu");
      (py "eu-central-1", py "eu");
      (py "eu-west-3", py "eu");
      (py "ap-southeast-2", py "au") ].

Definition get_model_id
    (model : pystr) (enable_cross_region : bool) (bedrock_region : pystr)
  : result pystr :=
  let base_model_id := base_model_ids !! model in
  if negb (opt_truthy base_model_id) then
    Raise (ValueError (py "Unsupported model: " ++ model))
  else
    let base_model_id := default [] base_model_id in
    if enable_cross_region
       && bool_decide (model ∈ cross_region_inference_models)
    then
      let region_prefix := supported_region_prefixes !! bedrock_region in
      if opt_truthy region_prefix
      then Ok (default [] region_prefix ++ py "." ++ base_model_id)
      else Ok base_model_id
    else Ok base_model_id.

(** The logical names of [base_model_ids], and the prefixes of
    [supported_region_prefixes]. *)
Definition logical_models : list pystr :=
  [ py "claude-v2";
    py "claude-instant-v1";
    py "claude-v3-sonnet";
    py "claude-v3-haiku";
    py "claude-v3-opus";
    py "claude-v3.5-sonnet";
    py "claude-v3.5-sonnet-v2";
    py "claude-v3.5-haiku";
    py "mistral-7b-instruct";
    py "mixtral-8x7b-instruct";
    py "mistral-large" ].

Definition region_prefixes : list pystr := [ py "us"; py "eu"; py "au" ].

(** The id the resolver builds from the looked-up prefix of the region. *)
Definition rewritten_id
    (prefix : option pystr) (enable : bool) (model : pystr) : pystr :=
  let base := default [] (base_model_ids !! model) in
  if enable && bool_decide (model ∈ cross_region_inference_models)
  then from_option (λ p, p ++ py "." ++ base) base prefix
  else base.

End Resolver.


(** ** File names: [pathlib] and the document-name sanitiser *)

Module Files.

(** [str.split(sep)] for a one-character separator. *)
Fixpoint split_on (sep : N) (s : pystr) : list pystr :=
  match s with
  | [] => [[]]
  | ch :: s' =>
      if N.eqb ch sep then [] :: split_on sep s'
      else match split_on sep s' with
           | [] => [[ch]]
           | w :: ws => (ch :: w) :: ws
           end
  end.

(** [str.rfind(ch)]: the index of the last occurrence, [None] for [-1]. *)
Fixpoint rfind (ch : N) (s : pystr) : option nat :=
  match s with
  | [] => None
  | x :: s' =>
      match rfind ch s' with
      | Some i => Some (S i)
      | None => if N.eqb x ch then Some 0 else None
      end
  end.

(** [PurePosixPath(p).name]: the last component of [p] that is neither empty
    nor ["."]; the empty string when there is none. *)
Definition path_name (p : pystr) : pystr :=
  default []
    (last (filter (λ part, part ≠ [] ∧ part ≠ py ".") (split_on 47%N p))).

(** The index of the dot that starts the suffix: [0 < i < len(name) - 1]
    (CPython 3.8 to 3.13). *)
Definition suffix_index (name : pystr) : option nat :=
  match rfind 46%N name with
  | Some i => if (0 <? i) && (i <? length name - 1) then Some i else None
  | None => None
  end.

(** [Path(p).suffix] *)
Definition path_suffix (p : pystr) : pystr :=
  let name := path_name p in
  match suffix_index name with
  | Some i => drop i name
  | None => []
  end.

(** [Path(p).stem] *)
Definition path_stem (p : pystr) : pystr :=
  let name := path_name p in
  match suffix_index name with
  | Some i => take i name
  | None => name
  end.

Definition supported_formats : gmap pystr pystr :=
  list_to_map
    [ (py "pdf", py "pdf");
      (py "csv", py "csv");
      (py "doc", py "doc");
      (py "docx", py "docx");
      (py "xls", py "xls");
      (py "xlsx", py "xlsx");
      (py "html", py "html");
      (py "txt", py "txt");
      (py "md", py "md") ].

Definition _get_converse_supported_format (ext : pystr) : pystr :=
  (* If the extension is not supported, return "txt" *)
  default (py "txt") (supported_formats !! ext).

(** [\s] of a [str] pattern and the characters removed by [str.strip()]:
    CPython's [Py_UNICODE_ISSPACE]. *)
Definition is_space (ch : N) : bool :=
  (((9 <=? ch) && (ch <=? 13)) || ((28 <=? ch) && (ch <=? 32))
   || (ch =? 133) || (ch =? 160) || (ch =? 5760)
   || ((8192 <=? ch) && (ch <=? 8202))
   || (ch =? 8232) || (ch =? 8233) || (ch =? 8239) || (ch =? 8287)
   || (ch =? 12288))%N.

(** The character class [a-zA-Z0-9\s\-\(\)\[\]]. *)
Definition is_valid_char (ch : N) : bool :=
  (((97 <=? ch) && (ch <=? 122)) || ((65 <=? ch) && (ch <=? 90))
   || ((48 <=? ch) && (ch <=? 57))
   || is_space ch
   || (ch =? 45) || (ch =? 40) || (ch =? 41) || (ch =? 91) || (ch =? 93))%N.

(** [re.sub(r"[^a-zA-Z0-9\s\-\(\)\[\]]", "", s)] *)
Definition remove_invalid (s : pystr) : pystr :=
  List.filter is_valid_char s.

(** [re.sub(r"\s+", " ", s)]: every maximal run of whitespace becomes one
    space; [in_run] tells that the previous character was whitespace. *)
Fixpoint collapse_from (in_run : bool) (s : pystr) : pystr :=
  match s with
  | [] => []
  | ch :: s' =>
      if is_space ch
      then if in_run then collapse_from true s' else 32%N :: collapse_from true s'
      else ch :: collapse_from false s'
  end.

Definition collapse_spaces (s : pystr) : pystr := collapse_from false s.

Fixpoint lstrip (s : pystr) : pystr :=
  match s with
  | [] => []
  | ch :: s' => if is_space ch then lstrip s' else s
  end.

Fixpoint rstrip (s : pystr) : pystr :=
  match s with
  | [] => []
  | ch :: s' =>
      match rstrip s' with
      | [] => if is_space ch then [] else [ch]
      | kept => ch :: kept
      end
  end.

(** [s.strip()] *)
Definition strip (s : pystr) : pystr := rstrip (lstrip s).

(** No two whitespace characters in a row. *)
Fixpoint single_spaced (s : pystr) : Prop :=
  match s with
  | [] => True
  | a :: s' =>
      match s' with
      | [] => True
      | b :: _ => ¬ (is_space a = true ∧ is_space b = true)
      end ∧ single_spaced s'
  end.

(** A character of a sanitised name: of the allowed class, and the only
    whitespace is the space U+0020. *)
Definition name_char (ch : N) : Prop :=
  is_valid_char ch = true ∧ (is_space ch = true → ch = 32%N).

(** The characters of [s] that are not whitespace, in order. *)
Definition visible (s : pystr) : pystr :=
  List.filter (λ ch, negb (is_space ch)) s.

(** The extensions the converse API takes as document formats. *)
Definition allow_list : list pystr :=
  [ py "pdf"; py "csv"; py "doc"; py "docx"; py "xls"; py "xlsx";
    py "html"; py "txt"; py "md" ].

Definition _convert_to_valid_file_name (file_name : pystr) : pystr :=
  (* Note: The document file name can only contain alphanumeric characters,
     whitespace characters, hyphens, parentheses, and square brackets.
     The name can't contain more than one consecutive whitespace character. *)
  let file_name := remove_invalid file_name in
  let file_name := collapse_spaces file_name in
  let file_name := strip file_name in
  file_name.

End Files.

(** ** Values, models and the process environment *)

(** Python numbers (unit prices, thresholds, generation parameters) with the
    operations the code applies to them; [num_of_int] is the conversion of an
    [int] operand (a token count, the literal [0]), taken as total. *)
Class Numeric : Type := {
  num : Type;
  num_of_int : Z → num;
  num_1000 : num;                  (* the literal 1000.0 *)
  num_mul : num → num → num;
  num_div : num → num → num;
  num_add : num → num → num;
  num_gt : num → num → bool;
}.

Section Values.
Context {NUM : Numeric}.

#[local] Set Warnings "-register-all".

Inductive pyval : Type :=
| PNone
| PBool (b : bool)
| PInt (z : Z)
| PFloat (x : num)
| PStr (s : pystr)
| PBytes (b : list Byte.byte)
| PList (l : list pyval)
| PDict (items : list (pystr * pyval)).

(** [isinstance(v, str)] *)
Definition is_str (v : pyval) : bool :=
  match v with PStr _ => true | _ => false end.

(** Modelled from the spec: the content block of
    [app.repositories.models.conversation], with the attributes the composer
    reads: a type tag, an optional media type, a body and an optional file
    name. *)
Record ContentModel : Type := {
  content_type : pystr;
  media_type : option pystr;
  body : pyval;
  file_name : option pystr;
}.

(** Modelled from the spec: a turn of [app.repositories.models.conversation],
    a role and an ordered list of content blocks. *)
Record MessageModel : Type := {
  role : pystr;
  content : list ContentModel;
}.

(** Modelled from the spec: the generation parameters of
    [app.repositories.models.custom_bot]. *)
Record GenerationParamsModel : Type := {
  max_tokens : pyval;
  temperature : pyval;
  top_p : pyval;
  top_k : pyval;
  stop_sequences : pyval;
}.

(** Modelled from the spec: the guardrail configuration of
    [app.repositories.models.custom_bot_guardrails], with the attributes the
    composer reads: identifier, version (both [str]) and grounding threshold. *)
Record BedrockGuardrailsModel : Type := {
  guardrail_arn : pystr;
  guardrail_version : pystr;
  grounding_threshold : num;
}.

Record GuardrailConfig : Type := {
  guardrailIdentifier : pystr;
  guardrailVersion : pystr;
  trace : pystr;
  streamProcessingMode : option pystr;      (* NotRequired *)
}.

(** The request; [tool_config] is never set by the composer and is left out. *)
Record ConverseApiRequest : Type := {
  inference_config : gmap pystr pyval;
  additional_model_request_fields : gmap pystr pyval;
  model_id : pystr;
  messages : list pyval;
  stream : bool;
  system : list pyval;
  guardrailConfig : option GuardrailConfig; (* NotRequired *)
}.

(** [config["streamProcessingMode"] = mode] *)
Definition set_streamProcessingMode
    (config : GuardrailConfig) (mode : pystr) : GuardrailConfig :=
  {| guardrailIdentifier := guardrailIdentifier config;
     guardrailVersion := guardrailVersion config;
     trace := trace config;
     streamProcessingMode := Some mode |}.

(** [args["guardrailConfig"] = config] *)
Definition set_guardrailConfig
    (args : ConverseApiRequest) (config : GuardrailConfig) : ConverseApiRequest :=
  {| inference_config := inference_config args;
     additional_model_request_fields := additional_model_request_fields args;
     model_id := model_id args;
     messages := messages args;
     stream := stream args;
     system := system args;
     guardrailConfig := Some config |}.

(** What the module reads from [os.environ], [app.config] and [app.utils],
    and [base64.b64decode]. *)
Class Environment : Type := {
  BEDROCK_REGION : pystr;
  ENABLE_MISTRAL : bool;
  ENABLE_BEDROCK_CROSS_REGION_INFERENCE : bool;
  DEFAULT_CLAUDE_GENERATION_CONFIG : gmap pystr pyval;
  DEFAULT_MISTRAL_GENERATION_CONFIG : gmap pystr pyval;
  BEDROCK_PRICING : gmap pystr (gmap pystr (gmap pystr num));
  convert_dict_keys_to_camel_case : gmap pystr pyval → gmap pystr pyval;
  b64decode : pyval → result (list Byte.byte);
}.

End Values.

(** ** Request composer *)

Module Composer.
Import Resolver Files.

Section Compose.
Context {NUM : Numeric} {ENV : Environment}.

Definition DEFAULT_GENERATION_CONFIG : gmap pystr pyval :=
  if ENABLE_MISTRAL
  then DEFAULT_MISTRAL_GENERATION_CONFIG
  else DEFAULT_CLAUDE_GENERATION_CONFIG.

(** [d[k]] on a dict. *)
Definition getitem {V} (d : gmap pystr V) (k : pystr) : result V :=
  match d !! k with
  | Some v => Ok v
  | None => Raise (KeyError k)
  end.

(** [l[i]] on a list, [i >= 0]. *)
Definition getindex {V} (l : list V) (i : nat) : result V :=
  match l !! i with
  | Some v => Ok v
  | None => Raise IndexError
  end.

(** [Path(file_name)]: [None] is not path-like. *)
Definition Path (file_name : option pystr) : result pystr :=
  match file_name with
  | Some p => Ok p
  | None => Raise TypeError
  end.

(** [guardrail and guardrail.grounding_threshold > 0] *)
Definition grounding_active (guardrail : option BedrockGuardrailsModel) : bool :=
  match guardrail with
  | Some g => num_gt (grounding_threshold g) (num_of_int 0)
  | None => false
  end.

(** The inner function of [compose_args_for_converse_api]; [guardrail] and
    [grounding_source] are the variables it captures. *)
Definition process_content
    (guardrail : option BedrockGuardrailsModel) (grounding_source : pyval)
    (c : ContentModel) (role : pystr) : result (list pyval) :=
  if bool_decide (content_type c = py "text") then
    if bool_decide (role = py "user") && grounding_active guardrail then
      Ok [ PDict [ (py "guardContent", grounding_source) ];
           PDict [ (py "guardContent",
                    PDict [ (py "text",
                             PDict [ (py "text", body c);
                                     (py "qualifiers", PList [PStr (py "query")]) ]) ]) ] ]
    else if bool_decide (role = py "assistant") then
      Ok [ PDict [ (py "text", if is_str (body c) then body c else PNone) ] ]
    else
      Ok [ PDict [ (py "text", body c) ] ]
  else if bool_decide (content_type c = py "image") then
    (* e.g. "image/png" -> "png" *)
    let* format :=
      (if opt_truthy (media_type c)
       then getindex (split_on 47%N (default [] (media_type c))) 1
       else Ok (py "unknown")) in
    (* decode base64 encoded image *)
    let* bytes := b64decode (body c) in
    Ok [ PDict [ (py "image",
                  PDict [ (py "format", PStr format);
                          (py "source", PDict [ (py "bytes", PBytes bytes) ]) ]) ] ]
  else if bool_decide (content_type c = py "attachment") then
    let* path := Path (file_name c) in
    (* e.g. "document.txt" -> "txt" *)
    let format := _get_converse_supported_format (drop 1 (path_suffix path)) in
    (* e.g. "document.txt" -> "document" *)
    let name := _convert_to_valid_file_name (path_stem path) in
    (* decode base64 encoded document *)
    let* bytes := b64decode (body c) in
    Ok [ PDict [ (py "document",
                  PDict [ (py "format", PStr format);
                          (py "name", PStr name);
                          (py "source", PDict [ (py "bytes", PBytes bytes) ]) ]) ] ]
  else
    Raise (NotImplementedError (py "Unsupported content type: " ++ content_type c)).

(** [message.role not in ["system", "instruction"]] *)
Definition is_kept (message : MessageModel) : bool :=
  bool_decide (role message ∉ [py "system"; py "instruction"]).

(** One element of the [arg_messages] comprehension. *)
Definition arg_message
    (guardrail : option BedrockGuardrailsModel) (grounding_source : pyval)
    (message : MessageModel) : result pyval :=
  let* blocks :=
    rmap (λ c, process_content guardrail grounding_source c (role message))
         (content message) in
  Ok (PDict [ (py "role", PStr (role message));
              (py "content", PList (concat blocks)) ]).

Definition arg_messages
    (guardrail : option BedrockGuardrailsModel) (grounding_source : pyval)
    (messages : list MessageModel) : result (list pyval) :=
  rmap (arg_message guardrail grounding_source) (List.filter is_kept messages).

(** [{**DEFAULT_GENERATION_CONFIG, **(overrides if generation_params else {})}] *)
Definition merged_inference_config
    (generation_params : option GenerationParamsModel) : gmap pystr pyval :=
  match generation_params with
  | Some gp =>
      list_to_map
        [ (py "maxTokens", max_tokens gp);
          (py "temperature", temperature gp);
          (py "topP", top_p gp);
          (py "stopSequences", stop_sequences gp) ]
  | None => ∅
  end ∪ DEFAULT_GENERATION_CONFIG.

Definition compose_args_for_converse_api
    (messages : list MessageModel)
    (model : pystr)
    (instruction : option pystr)
    (stream : bool)
    (generation_params : option GenerationParamsModel)
    (grounding_source : pyval)
    (guardrail : option BedrockGuardrailsModel) : result ConverseApiRequest :=
  let* arg_messages := arg_messages guardrail grounding_source messages in
  let inference_config := merged_inference_config generation_params in
  (* additional_model_request_fields = {"top_k": inference_config.pop("top_k")} *)
  let* popped := getitem inference_config (py "top_k") in
  let inference_config := delete (py "top_k") inference_config in
  let additional_model_request_fields : gmap pystr pyval :=
    {[ py "top_k" := popped ]} in
  let* model_id :=
    get_model_id model ENABLE_BEDROCK_CROSS_REGION_INFERENCE BEDROCK_REGION in
  let args :=
    {| inference_config := convert_dict_keys_to_camel_case inference_config;
       additional_model_request_fields := additional_model_request_fields;
       model_id := model_id;
       messages := arg_messages;
       stream := stream;
       system := if opt_truthy instruction
                 then [ PDict [ (py "text", PStr (default [] instruction)) ] ]
                 else [];
       guardrailConfig := None |} in
  match guardrail with
  | Some g =>
      if str_truthy (guardrail_arn g) && str_truthy (guardrail_version g) then
        let config :=
          {| guardrailIdentifier := guardrail_arn g;
             guardrailVersion := guardrail_version g;
             trace := py "enabled";
             streamProcessingMode := None |} in
        if stream
        then (* https://docs.aws.amazon.com/bedrock/latest/userguide/guardrails-streaming.html *)
          Ok (set_guardrailConfig args
                (set_streamProcessingMode config (py "async")))
        else Ok (set_guardrailConfig args config)
      else Ok args
  | None => Ok args
  end.

(** The deprecated entry point: no grounding source, no guardrail. The
    [dict(...)] copy holds the same items. *)
Definition compose_args
    (messages : list MessageModel)
    (model : pystr)
    (instruction : option pystr)
    (stream : bool)
    (generation_params : option GenerationParamsModel)
  : result ConverseApiRequest :=
  compose_args_for_converse_api
    messages model instruction stream generation_params PNone None.

(** The wire block of an image. *)
Definition image_wire (format : pystr) (bytes : list Byte.byte) : pyval :=
  PDict [ (py "image",
           PDict [ (py "format", PStr format);
                   (py "source", PDict [ (py "bytes", PBytes bytes) ]) ]) ].

(** The wire block of a text block that is not wrapped for grounding: the
    body, or [None] for an assistant body that is not a [str]. *)
Definition text_wire (role_ : pystr) (c : ContentModel) : pyval :=
  PDict [ (py "text",
           if bool_decide (role_ = py "assistant") && negb (is_str (body c))
           then PNone else body c) ].

(** The wire message of a turn made of such text blocks. *)
Definition text_message (message : MessageModel) : pyval :=
  PDict [ (py "role", PStr (role message));
          (py "content", PList (text_wire (role message) <$> content message)) ].

(** The keys that explicit generation parameters set. *)
Definition override_keys : list pystr :=
  [ py "maxTokens"; py "temperature"; py "topP"; py "stopSequences" ].

(** The guardrail block as the specification words it: present when a
    guardrail with a non-empty identifier and a non-empty version is given,
    with the streaming mode added for a streaming call. *)
Definition guardrail_block
    (guardrail : option BedrockGuardrailsModel) (stream : bool)
  : option GuardrailConfig :=
  match guardrail with
  | Some g =>
      if bool_decide (guardrail_arn g ≠ [] ∧ guardrail_version g ≠ [])
      then Some {| guardrailIdentifier := guardrail_arn g;
                   guardrailVersion := guardrail_version g;
                   trace := py "enabled";
                   streamProcessingMode :=
                     if stream then Some (py "async") else None |}
      else None
  | None => None
  end.

(** A content block whose type is none of text, image, attachment. *)
Definition unsupported_type (c : ContentModel) : Prop :=
  content_type c ∉ [py "text"; py "image"; py "attachment"].

(** An image block whose non-empty media type has no ["/"], or whose body
    does not decode. *)
Definition malformed_image (c : ContentModel) : Prop :=
  content_type c = py "image"
  ∧ ((∃ mt, media_type c = Some mt ∧ mt ≠ [] ∧ 47%N ∉ mt)
     ∨ raises (b64decode (body c))).

(** An attachment block without a file name, or whose body does not decode. *)
Definition malformed_attachment (c : ContentModel) : Prop :=
  content_type c = py "attachment"
  ∧ (file_name c = None ∨ raises (b64decode (body c))).

End Compose.
End Composer.

(** ** Price calculator *)

Module Pricing.
Import Composer.

Section Price.
Context {NUM : Numeric} {ENV : Environment}.

(** [BEDROCK_PRICING.get(region, {}).get(model, {}).get(field)] *)
Definition region_price (region model field : pystr) : option num :=
  default ∅ (default ∅ (BEDROCK_PRICING !! region) !! model) !! field.

(** [BEDROCK_PRICING["default"][model][field]] *)
Definition default_price (model field : pystr) : result num :=
  let* by_model := getitem BEDROCK_PRICING (py "default") in
  let* by_field := getitem by_model model in
  getitem by_field field.

(** [BEDROCK_PRICING.get(region, {}).get(model, {}).get(field, <fallback>)]:
    the fallback argument is evaluated before [get] is called. *)
Definition unit_price (region model field : pystr) : result num :=
  let* fallback := default_price model field in
  Ok (default fallback (region_price region model field)).

Definition calculate_price
    (model : pystr) (input_tokens output_tokens : Z) (region : pystr)
  : result num :=
  let* input_price := unit_price region model (py "input") in
  let* output_price := unit_price region model (py "output") in
  Ok (num_add
        (num_div (num_mul input_price (num_of_int input_tokens)) num_1000)
        (num_div (num_mul output_price (num_of_int output_tokens)) num_1000)).

(** [table[region][model][field]], when the region, the model and the field
    are all present. *)
Definition table_entry (region model field : pystr) : option num :=
  match BEDROCK_PRICING !! region with
  | Some by_model =>
      match by_model !! model with
      | Some by_field => by_field !! field
      | None => None
      end
  | None => None
  end.

(** The lookup order as the specification words it: the region's entry, and
    the default region's entry when the region, the model or the field is
    missing there. *)
Definition spec_unit_price (region model field : pystr) : option num :=
  match table_entry region model field with
  | Some p => Some p
  | None => table_entry (py "default") model field
  end.

End Price.
End Pricing.

(** ** Test fixture: fetching a sample PDF ([tests/test_stream/get_pdf.py]) *)

Module Fixture.
Import Files.

(** What [requests.get] gives back, as far as the fixture reads it: the
    status code, [headers.get("Content-Disposition")] and the body. *)
Record Response : Type := {
  status_code : Z;
  content_disposition : option pystr;
  response_content : list Byte.byte;
}.

(** The exceptions of the fixture: a built-in one, or the plain
    [Exception(msg)] it raises itself. *)
Inductive fixture_exn : Type :=
| Builtin (e : exn)
| PlainException (msg : pystr).

Inductive fetched (A : Type) : Type :=
| Fetched (a : A)
| FetchRaise (e : fixture_exn).
Arguments Fetched {A} a.
Arguments FetchRaise {A} e.

(** [s.startswith(p)] *)
Fixpoint is_prefix (p s : pystr) : bool :=
  match p, s with
  | [], _ => true
  | _ :: _, [] => false
  | a :: p', b :: s' => N.eqb a b && is_prefix p' s'
  end.

(** [s.split(sep)] for a non-empty [sep], scanning left to right: [cur] is
    the piece being read, [skip] the number of characters of a separator
    just found that are still to be passed over. *)
Fixpoint split_skip (sep : pystr) (skip : nat) (cur s : pystr) : list pystr :=
  match s with
  | [] => [cur]
  | ch :: s' =>
      match skip with
      | S k => split_skip sep k cur s'
      | O =>
          if is_prefix sep s
          then cur :: split_skip sep (length sep - 1) [] s'
          else split_skip sep 0 (cur ++ [ch]) s'
      end
  end.

Definition split_str (sep s : pystr) : list pystr := split_skip sep 0 [] s.

(** [sep] occurs in [s]. *)
Definition occurs (sep s : pystr) : Prop := ∃ a b, s = a ++ sep ++ b.

Fixpoint lstrip_chars (chars : list N) (s : pystr) : pystr :=
  match s with
  | [] => []
  | ch :: s' => if bool_decide (ch ∈ chars) then lstrip_chars chars s' else s
  end.

Fixpoint rstrip_chars (chars : list N) (s : pystr) : pystr :=
  match s with
  | [] => []
  | ch :: s' =>
      match rstrip_chars chars s' with
      | [] => if bool_decide (ch ∈ chars) then [] else [ch]
      | kept => ch :: kept
      end
  end.

(** [s.strip(chars)] *)
Definition strip_chars (chars : list N) (s : pystr) : pystr :=
  rstrip_chars chars (lstrip_chars chars s).

(** [os.path.basename(p)] on POSIX: [p[p.rfind("/") + 1:]]. *)
Definition basename (p : pystr) : pystr :=
  match rfind 47%N p with
  | Some i => drop (S i) p
  | None => p
  end.

Section Fetch.

(** [requests.get], taken to answer with a response, and
    [base64.b64encode(...).decode("utf-8")]. *)
Variable http_get : pystr → Response.
Variable b64encode : list Byte.byte → pystr.

Definition get_pdf_info (url : pystr) : fetched (pystr * pystr) :=
  let response := http_get url in
  if Z.eqb (status_code response) 200 then
    let content_disposition := content_disposition response in
    match
      (if opt_truthy content_disposition
       then match split_str (py "filename=")
                    (default [] content_disposition) !! 1 with
            | Some part => Fetched (strip_chars [34%N] part)
            | None => FetchRaise (Builtin IndexError)
            end
       else Fetched (basename url))
    with
    | Fetched filename =>
        let body := response_content response in
        Fetched (filename, strip (b64encode body))
    | FetchRaise e => FetchRaise e
    end
  else
    FetchRaise (PlainException (py "Failed to fetch PDF from " ++ url)).

Definition aws_overview_url : pystr :=
  py "https://aws-startup.s3.ap-southeast-2.amazonaws.com/Activate/AWS_Activate_General_4.pdf".

Definition get_aws_overview : fetched (pystr * pystr) :=
  (* Get the AWS Activate General 4 PDF as base64 encoded string *)
  get_pdf_info aws_overview_url.

End Fetch.

Definition get_test_markdown : pystr :=
  py "##" ++ [10%N] ++ py "This is a test text.".

End Fixture.

(** ** A sample process environment

    Exact rationals stand for the numbers; the tables hold a few entries. *)

Module Sample.
Import Composer Pricing.

#[export] Instance rational : Numeric := {|
  num := QArith_base.Q;
  num_of_int := QArith_base.inject_Z;
  num_1000 := QArith_base.inject_Z 1000;
  num_mul := QArith_base.Qmult;
  num_div := QArith_base.Qdiv;
  num_add := QArith_base.Qplus;
  num_gt := λ x y, negb (QArith_base.Qle_bool x y);
|}.

Definition q (n : Z) (d : positive) : QArith_base.Q := QArith_base.Qmake n d.

Definition generation_config : gmap pystr pyval :=
  list_to_map
    [ (py "max_tokens", PInt 2000);
      (py "top_k", PInt 250);
      (py "top_p", PFloat (q 999 1000));
      (py "temperature", PFloat (q 6 10));
      (py "stop_sequences", PList [PStr (py "Human: "); PStr (py "Assistant: ")]) ].

(** One [snake_case] key to [camelCase]: each ["_"] is dropped and the ASCII
    lower-case letter after it is capitalised. *)
Fixpoint camel (upper : bool) (s : pystr) : pystr :=
  match s with
  | [] => []
  | ch :: s' =>
      if (ch =? 95)%N then camel true s'
      else (if upper && (97 <=? ch)%N && (ch <=? 122)%N then (ch - 32)%N else ch)
           :: camel false s'
  end.

Definition camel_keys (d : gmap pystr pyval) : gmap pystr pyval :=
  list_to_map (prod_map (camel false) id <$> map_to_list d).

(** Decodes the empty string only. *)
Definition decode_empty (v : pyval) : result (list Byte.byte) :=
  match v with
  | PStr [] => Ok []
  | _ => Raise DecodeError
  end.

Definition haiku : pystr := py "claude-v3-haiku".

Definition haiku_prices : gmap pystr QArith_base.Q :=
  list_to_map [ (py "input", q 25 100000); (py "output", q 125 100000) ].

(** ["us-east-1"] overrides the input price of [claude-v3-haiku] only, and
    prices [claude-v3.5-haiku], which ["default"] does not list. *)
Definition pricing : gmap pystr (gmap pystr (gmap pystr QArith_base.Q)) :=
  list_to_map
    [ (py "us-east-1",
       list_to_map
         [ (haiku, list_to_map [ (py "input", q 3 10000) ]);
           (py "claude-v3.5-haiku",
            list_to_map [ (py "input", q 1 1000); (py "output", q 5 1000) ]) ]);
      (py "default",
       list_to_map [ (haiku, haiku_prices) ]) ].

#[export] Instance env : Environment := {|
  BEDROCK_REGION := py "ap-southeast-2";
  ENABLE_MISTRAL := false;
  ENABLE_BEDROCK_CROSS_REGION_INFERENCE := false;
  DEFAULT_CLAUDE_GENERATION_CONFIG := generation_config;
  DEFAULT_MISTRAL_GENERATION_CONFIG := generation_config;
  BEDROCK_PRICING := pricing;
  convert_dict_keys_to_camel_case := camel_keys;
  b64decode := decode_empty;
|}.

Definition text_block (s : pystr) : ContentModel :=
  {| content_type := py "text"; media_type := None;
     body := PStr s; file_name := None |}.

Definition attachment_block (name : pystr) : ContentModel :=
  {| content_type := py "attachment"; media_type := None;
     body := PStr []; file_name := Some name |}.

Definition video_block : ContentModel :=
  {| content_type := py "video"; media_type := None;
     body := PNone; file_name := None |}.

Definition user_turn (c : ContentModel) : MessageModel :=
  {| role := py "user"; content := [c] |}.

(** A table whose default entry for [claude-v3-opus] has no output price. *)
Definition partial_pricing : gmap pystr (gmap pystr (gmap pystr QArith_base.Q)) :=
  list_to_map
    [ (py "default",
       list_to_map
         [ (py "claude-v3-opus", list_to_map [ (py "input", q 15 1000) ]) ]) ].

Definition env_partial : Environment := {|
  BEDROCK_REGION := py "us-east-1";
  ENABLE_MISTRAL := false;
  ENABLE_BEDROCK_CROSS_REGION_INFERENCE := true;
  DEFAULT_CLAUDE_GENERATION_CONFIG := generation_config;
  DEFAULT_MISTRAL_GENERATION_CONFIG := generation_config;
  BEDROCK_PRICING := partial_pricing;
  convert_dict_keys_to_camel_case := camel_keys;
  b64decode := decode_empty;
|}.

(** Three answers of a server: a PDF without [Content-Disposition], one
    with a header that names no file, one with a quoted file name; anything
    else is not found. *)
Definition sample_get (url : pystr) : Fixture.Response :=
  if bool_decide (url = py "https://example.com/files/a.pdf") then
    {| Fixture.status_code := 200; Fixture.content_disposition := None;
       Fixture.response_content := [] |}
  else if bool_decide (url = py "https://example.com/inline") then
    {| Fixture.status_code := 200;
       Fixture.content_disposition := Some (py "inline");
       Fixture.response_content := [] |}
  else if bool_decide (url = py "https://example.com/download") then
    {| Fixture.status_code := 200;
       Fixture.content_disposition :=
         Some (py "filename=" ++ [34%N] ++ py "a.pdf" ++ [34%N]);
       Fixture.response_content := [] |}
  else
    {| Fixture.status_code := 404; Fixture.content_disposition := None;
       Fixture.response_content := [] |}.

Definition sample_b64encode (bytes : list Byte.byte) : pystr :=
  match bytes with
  | [] => []
  | _ => py "JVBERi0="
  end.

(** A conversation of a system turn, a user turn and an assistant turn. *)
Definition conversation : list MessageModel :=
  [ {| role := py "system"; content := [video_block] |};
    user_turn (text_block (py "hi"));
    {| role := py "assistant"; content := [text_block (py "hello")] |} ].

Definition image_block (media : option pystr) : ContentModel :=
  {| content_type := py "image"; media_type := media;
     body := PStr []; file_name := None |}.

Definition generation_params : GenerationParamsModel :=
  {| max_tokens := PInt 512;
     temperature := PFloat (q 1 10);
     top_p := PFloat (q 9 10);
     top_k := PInt 5;
     stop_sequences := PList [] |}.

(** ["My Résumé (v2).pdf!!"] *)
Definition resume_file_name : pystr :=
  py "My R" ++ [233%N] ++ py "sum" ++ [233%N] ++ py " (v2).pdf!!".

Definition guardrail (threshold : QArith_base.Q) : BedrockGuardrailsModel :=
  {| guardrail_arn := py "arn:aws:bedrock:ap-southeast-2:000000000000:guardrail/g1";
     guardrail_version := py "1";
     grounding_threshold := threshold |}.

End Sample.

(** * Properties *)

(** ** The error monad *)

Lemma returns_or_raises {A} (r : result A) : returns r ∨ raises r.
Proof. destruct r as [a|e]; [left; exists a | right; exists e]; reflexivity. Qed.

Lemma not_returns_and_raises {A} (r : result A) : ¬ (returns r ∧ raises r).
Proof. intros [[a Ha] [e He]]. congruence. Qed.

Lemma raises_not_returns {A} (r : result A) : raises r ↔ ¬ returns r.
Proof.
  split.
  - intros Hr Hok. exact (not_returns_and_raises r (conj Hok Hr)).
  - intros Hn. destruct (returns_or_raises r) as [Hok|Hr]; [contradiction|exact Hr].
Qed.

Lemma rbind_Ok {A B} (r : result A) (k : A → result B) (b : B) :
  rbind r k = Ok b ↔ ∃ a, r = Ok a ∧ k a = Ok b.
Proof.
  destruct r as [a|e]; cbn.
  - split; [intros H; exists a; auto | intros (a' & Ha & Hk); congruence].
  - split; [discriminate | intros (a' & Ha & _); discriminate].
Qed.

Lemma rmap_Ok {A B} (f : A → result B) (l : list A) (ys : list B) :
  rmap f l = Ok ys ↔ Forall2 (λ x y, f x = Ok y) l ys.
Proof.
  revert ys. induction l as [|x l IH]; intros ys; cbn.
  - split.
    + intros [= <-]. constructor.
    + intros H. inversion H. reflexivity.
  - rewrite rbind_Ok. split.
    + intros (y & Hy & Hrest). apply rbind_Ok in Hrest as (ys' & Hys' & [= <-]).
      constructor; [exact Hy | apply IH; exact Hys'].
    + intros H. inversion H as [|? y ? ys' Hy Hys']; subst.
      exists y. split; [exact Hy|]. apply IH in Hys'. rewrite Hys'. reflexivity.
Qed.

Lemma rmap_returns {A B} (f : A → result B) (l : list A) :
  returns (rmap f l) ↔ ∀ x, x ∈ l → returns (f x).
Proof.
  induction l as [|x l IH]; cbn.
  - split; [intros _ x Hx; inversion Hx | intros _; eexists; reflexivity].
  - split.
    + intros [ys Hys]. apply rbind_Ok in Hys as (y & Hy & Hrest).
      apply rbind_Ok in Hrest as (ys' & Hys' & _).
      intros x' Hx'. apply elem_of_cons in Hx' as [->|Hx'].
      * exists y. exact Hy.
      * apply IH; [exists ys'; exact Hys' | exact Hx'].
    + intros Hall.
      destruct (Hall x) as [y Hy]; [left|].
      destruct (proj2 IH) as [ys Hys]; [intros x' Hx'; apply Hall; right; exact Hx'|].
      exists (y :: ys). rewrite Hy, Hys. reflexivity.
Qed.

Lemma rmap_raises {A B} (f : A → result B) (l : list A) :
  raises (rmap f l) ↔ ∃ x, x ∈ l ∧ raises (f x).
Proof.
  induction l as [|x l IH]; cbn.
  - split; [intros [e He]; discriminate | intros (x & Hx & _); inversion Hx].
  - split.
    + intros Hr. destruct (f x) as [y|e] eqn:Hfx.
      * cbn in Hr. destruct (rmap f l) as [ys|e] eqn:Hl.
        { destruct Hr as [e He]. discriminate. }
        destruct (proj1 IH) as (x' & Hx' & Hfx'); [exists e; reflexivity|].
        exists x'. split; [right; exact Hx' | exact Hfx'].
      * exists x. split; [left | exists e; exact Hfx].
    + intros (x' & Hx' & Hfx'). apply elem_of_cons in Hx' as [->|Hx'].
      * destruct Hfx' as [e He]. rewrite He. exists e. reflexivity.
      * destruct (f x) as [y|e]; cbn; [|exists e; reflexivity].
        destruct (proj2 IH) as [e He]; [exists x'; auto|].
        rewrite He. exists e. reflexivity.
Qed.

(** ** Properties of the resolver *)

Module ResolverFacts.
Import Resolver.

Lemma base_model_ids_truthy (model b : pystr) :
  base_model_ids !! model = Some b → str_truthy b = true.
Proof.
  intros H.
  assert (Hall : map_Forall (λ _ v, str_truthy v = true) base_model_ids).
  { apply (bool_decide_unpack _). vm_compute. exact I. }
  exact (Hall _ _ H).
Qed.

Lemma region_prefixes_truthy (region p : pystr) :
  supported_region_prefixes !! region = Some p → str_truthy p = true.
Proof.
  intros H.
  assert (Hall : map_Forall (λ _ v, str_truthy v = true) supported_region_prefixes).
  { apply (bool_decide_unpack _). vm_compute. exact I. }
  exact (Hall _ _ H).
Qed.

Lemma cross_region_models_have_base (model : pystr) :
  model ∈ cross_region_inference_models → is_Some (base_model_ids !! model).
Proof.
  intros H.
  assert (Hall : set_Forall (λ m, is_Some (base_model_ids !! m))
                            cross_region_inference_models).
  { apply (bool_decide_unpack _). vm_compute. exact I. }
  exact (Hall _ H).
Qed.

(** The value returned for a model of the base mapping, in closed form. *)
Lemma get_model_id_supported (model b : pystr) (enable : bool) (region : pystr) :
  base_model_ids !! model = Some b →
  get_model_id model enable region =
    Ok (if enable && bool_decide (model ∈ cross_region_inference_models)
        then match supported_region_prefixes !! region with
             | Some p => p ++ py "." ++ b
             | None => b
             end
        else b).
Proof.
  intros Hb. unfold get_model_id. rewrite Hb. cbn [opt_truthy default].
  rewrite (base_model_ids_truthy _ _ Hb). cbn [negb].
  destruct (enable && _); [|reflexivity].
  destruct (supported_region_prefixes !! region) as [p|] eqn:Hp; cbn [opt_truthy default].
  - rewrite (region_prefixes_truthy _ _ Hp). reflexivity.
  - reflexivity.
Qed.

Lemma get_model_id_unsupported (model : pystr) (enable : bool) (region : pystr) :
  base_model_ids !! model = None →
  get_model_id model enable region =
    Raise (ValueError (py "Unsupported model: " ++ model)).
Proof. intros Hb. unfold get_model_id. rewrite Hb. reflexivity. Qed.

(** C1. Every model of the cross-region subset has a base id [b]; with
    cross-region inference enabled and a region of the prefix table the
    resolver returns ["{prefix}.{b}"]; with cross-region disabled, with a
    region absent from the table, or for a model of the base mapping outside
    the subset, it returns [b] unchanged. *)
Theorem get_model_id_cross_region :
  (∀ model, model ∈ cross_region_inference_models →
     ∃ b, base_model_ids !! model = Some b
        ∧ (∀ region prefix,
             supported_region_prefixes !! region = Some prefix →
             get_model_id model true region = Ok (prefix ++ py "." ++ b))
        ∧ (∀ region, get_model_id model false region = Ok b)
        ∧ (∀ region,
             supported_region_prefixes !! region = None →
             get_model_id model true region = Ok b))
  ∧ (∀ model b enable region,
       base_model_ids !! model = Some b →
       model ∉ cross_region_inference_models →
       get_model_id model enable region = Ok b).
Proof.
  split.
  - intros model Hin.
    destruct (cross_region_models_have_base _ Hin) as [b Hb].
    exists b. split; [exact Hb|].
    split; [|split].
    + intros region prefix Hp.
      rewrite (get_model_id_supported _ _ _ _ Hb), Hp.
      rewrite (bool_decide_eq_true_2 _ Hin). reflexivity.
    + intros region. rewrite (get_model_id_supported _ _ _ _ Hb). reflexivity.
    + intros region Hp.
      rewrite (get_model_id_supported _ _ _ _ Hb), Hp.
      destruct (true && _); reflexivity.
  - intros model b enable region Hb Hout.
    rewrite (get_model_id_supported _ _ _ _ Hb).
    rewrite (bool_decide_eq_false_2 _ Hout), andb_false_r. reflexivity.
Qed.

End ResolverFacts.

(** ** Properties of the file-name helpers *)

Module FilesFacts.
Import Files.

Lemma supported_format_spec (ext : pystr) :
  _get_converse_supported_format ext =
    if bool_decide (ext ∈ allow_list) then ext else py "txt".
Proof.
  unfold _get_converse_supported_format.
  destruct (decide (ext ∈ allow_list)) as [Hin|Hout].
  - rewrite (bool_decide_eq_true_2 _ Hin). unfold allow_list in Hin.
    repeat (apply elem_of_cons in Hin as [->|Hin]; [reflexivity|]).
    inversion Hin.
  - rewrite (bool_decide_eq_false_2 _ Hout).
    unfold supported_formats.
    rewrite (not_elem_of_list_to_map_1 _ ext); [reflexivity|exact Hout].
Qed.

Lemma supported_format_in_allow_list (ext : pystr) :
  _get_converse_supported_format ext ∈ allow_list.
Proof.
  rewrite supported_format_spec. case_bool_decide as Hin; [exact Hin|].
  unfold allow_list. set_solver.
Qed.

Lemma remove_invalid_valid (s : pystr) :
  Forall (λ ch, is_valid_char ch = true) (remove_invalid s).
Proof.
  induction s as [|ch s IH]; cbn; [constructor|].
  destruct (is_valid_char ch) eqn:Hch; [constructor; assumption | exact IH].
Qed.

Lemma collapse_from_chars (in_run : bool) (s : pystr) :
  Forall (λ ch, is_valid_char ch = true) s →
  Forall name_char (collapse_from in_run s).
Proof.
  intros Hs. revert in_run.
  induction Hs as [|ch s Hch Hs IH]; intros in_run; cbn; [constructor|].
  destruct (is_space ch) eqn:Hsp.
  - destruct in_run; [apply IH|].
    constructor; [|apply IH]. split; reflexivity.
  - constructor; [|apply IH]. split; [exact Hch | congruence].
Qed.

Lemma lstrip_Forall (P : N → Prop) (s : pystr) :
  Forall P s → Forall P (lstrip s).
Proof.
  induction 1 as [|ch s Hch Hs IH]; cbn; [constructor|].
  destruct (is_space ch); [exact IH | constructor; assumption].
Qed.

Lemma rstrip_Forall (P : N → Prop) (s : pystr) :
  Forall P s → Forall P (rstrip s).
Proof.
  induction 1 as [|ch s Hch Hs IH]; cbn; [constructor|].
  destruct (rstrip s) as [|k ks].
  - destruct (is_space ch); repeat constructor; assumption.
  - constructor; assumption.
Qed.

(** What [rstrip] keeps starts like its argument. *)
Lemma rstrip_head (s : pystr) (k : N) (ks : pystr) :
  rstrip s = k :: ks → ∃ s', s = k :: s'.
Proof.
  destruct s as [|ch s]; cbn; [discriminate|].
  destruct (rstrip s) as [|k' ks'].
  - destruct (is_space ch); [discriminate|]. intros [= <- <-]. eauto.
  - intros [= <- <-]. eauto.
Qed.

Lemma collapse_from_single_spaced (in_run : bool) (s : pystr) :
  single_spaced (collapse_from in_run s)
  ∧ (in_run = true →
     ∀ ch, head (collapse_from in_run s) = Some ch → is_space ch = false).
Proof.
  revert in_run. induction s as [|ch s IH]; intros in_run; cbn.
  - split; [exact I | intros _ ch' [=]].
  - destruct (is_space ch) eqn:Hsp.
    + destruct in_run.
      * apply IH.
      * split; [|discriminate].
        destruct (IH true) as [Hss Hhd]. cbn. split; [|exact Hss].
        destruct (collapse_from true s) as [|b rest] eqn:Hc; [exact I|].
        intros [_ Hb]. rewrite (Hhd eq_refl b eq_refl) in Hb. discriminate.
    + destruct (IH false) as [Hss _]. split.
      * cbn. split; [|exact Hss].
        destruct (collapse_from false s); [exact I|].
        intros [Ha _]. congruence.
      * intros _ ch' [= <-]. exact Hsp.
Qed.

Lemma single_spaced_tail (a : N) (s : pystr) :
  single_spaced (a :: s) → single_spaced s.
Proof. intros [_ H]. exact H. Qed.

Lemma lstrip_single_spaced (s : pystr) :
  single_spaced s → single_spaced (lstrip s).
Proof.
  induction s as [|ch s IH]; intros Hs; [exact I|]. cbn [lstrip].
  destruct (is_space ch); [apply IH; exact (single_spaced_tail _ _ Hs) | exact Hs].
Qed.

Lemma rstrip_single_spaced (s : pystr) :
  single_spaced s → single_spaced (rstrip s).
Proof.
  induction s as [|ch s IH]; intros Hs; [exact I|]. cbn [rstrip].
  destruct (rstrip s) as [|k ks] eqn:Hr.
  - destruct (is_space ch); cbn; auto.
  - destruct (rstrip_head _ _ _ Hr) as [s' ->].
    destruct Hs as [Hab Hs]. split; [exact Hab | apply IH; exact Hs].
Qed.

Lemma lstrip_first (s : pystr) (ch : N) :
  head (lstrip s) = Some ch → is_space ch = false.
Proof.
  induction s as [|a s IH]; cbn; [discriminate|].
  destruct (is_space a) eqn:Ha; [exact IH|]. cbn. intros [= <-]. exact Ha.
Qed.

Lemma rstrip_first (s : pystr) (ch : N) :
  head (rstrip s) = Some ch → head s = Some ch.
Proof.
  destruct (rstrip s) as [|k ks] eqn:Hr; cbn; [discriminate|].
  intros [= <-]. destruct (rstrip_head _ _ _ Hr) as [s' ->]. reflexivity.
Qed.

Lemma rstrip_last (s : pystr) (ch : N) :
  last (rstrip s) = Some ch → is_space ch = false.
Proof.
  induction s as [|a s IH]; cbn; [discriminate|].
  destruct (rstrip s) as [|k ks] eqn:Hr.
  - destruct (is_space a) eqn:Ha; cbn; [discriminate|]. intros [= <-]. exact Ha.
  - intros H. apply IH. exact H.
Qed.

Lemma visible_collapse_from (in_run : bool) (s : pystr) :
  visible (collapse_from in_run s) = visible s.
Proof.
  revert in_run. induction s as [|ch s IH]; intros in_run; cbn; [reflexivity|].
  destruct (is_space ch) eqn:Hsp; cbn.
  - destruct in_run; [apply IH|]. cbn. apply IH.
  - rewrite Hsp. cbn. f_equal. apply IH.
Qed.

Lemma visible_lstrip (s : pystr) : visible (lstrip s) = visible s.
Proof.
  induction s as [|ch s IH]; cbn; [reflexivity|].
  destruct (is_space ch) eqn:Hsp; cbn; [exact IH|]. rewrite Hsp. reflexivity.
Qed.

Lemma visible_cons (ch : N) (s : pystr) :
  visible (ch :: s) = if is_space ch then visible s else ch :: visible s.
Proof. unfold visible. cbn. destruct (is_space ch); reflexivity. Qed.

Lemma visible_rstrip (s : pystr) : visible (rstrip s) = visible s.
Proof.
  induction s as [|ch s IH]; [reflexivity|]. cbn [rstrip].
  rewrite (visible_cons ch s), <- IH.
  destruct (rstrip s) as [|k ks].
  - destruct (is_space ch) eqn:Hsp; [reflexivity|].
    rewrite visible_cons, Hsp. reflexivity.
  - rewrite (visible_cons ch). reflexivity.
Qed.

Lemma visible_remove_invalid (s : pystr) :
  visible (remove_invalid s) =
    List.filter (λ ch, is_valid_char ch && negb (is_space ch)) s.
Proof.
  induction s as [|ch s IH]; cbn; [reflexivity|].
  destruct (is_valid_char ch); cbn; [|exact IH].
  destruct (is_space ch); cbn; [exact IH | f_equal; exact IH].
Qed.

(** The sanitised name: allowed characters only, single spaces as the only
    whitespace, none of them leading or trailing, and the allowed visible
    characters of the input in their order. *)
Lemma valid_file_name_spec (file_name : pystr) :
  let name := _convert_to_valid_file_name file_name in
  Forall name_char name
  ∧ single_spaced name
  ∧ (∀ ch, head name = Some ch → is_space ch = false)
  ∧ (∀ ch, last name = Some ch → is_space ch = false)
  ∧ visible name =
      List.filter (λ ch, is_valid_char ch && negb (is_space ch)) file_name.
Proof.
  unfold _convert_to_valid_file_name, strip, collapse_spaces. cbn zeta.
  split; [|split; [|split; [|split]]].
  - apply rstrip_Forall, lstrip_Forall, collapse_from_chars, remove_invalid_valid.
  - apply rstrip_single_spaced, lstrip_single_spaced, collapse_from_single_spaced.
  - intros ch Hch. apply rstrip_first in Hch. exact (lstrip_first _ _ Hch).
  - apply rstrip_last.
  - rewrite visible_rstrip, visible_lstrip, visible_collapse_from.
    apply visible_remove_invalid.
Qed.

End FilesFacts.

(** ** Properties of the composer *)

Module ComposerFacts.
Import Resolver Files Composer ResolverFacts FilesFacts.

Section Facts.
Context {NUM : Numeric} {ENV : Environment}.

Lemma split_on_nonempty (sep : N) (s : pystr) : split_on sep s ≠ [].
Proof.
  destruct s as [|ch s]; cbn; [discriminate|].
  destruct (N.eqb ch sep); [discriminate|].
  destruct (split_on sep s); discriminate.
Qed.

(** [s.split(sep)[1]] raises exactly when [sep] does not occur in [s]. *)
Lemma split_on_second (sep : N) (s : pystr) :
  split_on sep s !! 1 = None ↔ sep ∉ s.
Proof.
  induction s as [|ch s IH]; cbn.
  - split; [intros _ H; inversion H | reflexivity].
  - destruct (N.eqb_spec ch sep) as [->|Hne].
    + split.
      * cbn. pose proof (split_on_nonempty sep s) as Hn.
        destruct (split_on sep s); [contradiction | discriminate].
      * intros Hout. exfalso. apply Hout. left.
    + pose proof (split_on_nonempty sep s) as Hn.
      destruct (split_on sep s) as [|w ws]; [contradiction|].
      cbn in IH |- *. rewrite IH, not_elem_of_cons. intuition congruence.
Qed.

Lemma getindex_raises {V} (l : list V) (i : nat) :
  raises (getindex l i) ↔ l !! i = None.
Proof.
  unfold getindex. destruct (l !! i).
  - split; [intros [e He]; discriminate | discriminate].
  - split; [reflexivity | intros _; eexists; reflexivity].
Qed.

Lemma rbind_raises {A B} (r : result A) (k : A → result B) :
  raises (rbind r k) ↔ raises r ∨ ∃ a, r = Ok a ∧ raises (k a).
Proof.
  destruct r as [a|e]; cbn.
  - split.
    + intros H. right. exists a. auto.
    + intros [[e He]|(a' & [= <-] & H)]; [discriminate | exact H].
  - split; [intros _; left; eexists; reflexivity | intros _; eexists; reflexivity].
Qed.

Lemma Ok_not_raises {A} (a : A) : ¬ raises (Ok a).
Proof. intros [e He]. discriminate. Qed.

(** The exceptions of [process_content]. *)
Lemma process_content_raises guardrail grounding_source c role :
  raises (process_content guardrail grounding_source c role)
  ↔ unsupported_type c ∨ malformed_image c ∨ malformed_attachment c.
Proof.
  unfold process_content, unsupported_type, malformed_image, malformed_attachment.
  case_bool_decide as Htext.
  { split.
    - intros Hr. exfalso. revert Hr.
      destruct (_ && _); [apply Ok_not_raises|].
      destruct (bool_decide _); apply Ok_not_raises.
    - rewrite Htext. intros [Hu|[[Hi _]|[Ha _]]]; [|discriminate..].
      exfalso. apply Hu. left. }
  case_bool_decide as Himage.
  { rewrite rbind_raises. split.
    - intros [Hfmt|(fmt & _ & Hrest)];
        [|apply rbind_raises in Hrest as [Hdec|(bytes & _ & Hr)]].
      + right; left. split; [exact Himage|]. left.
        destruct (media_type c) as [mt|]; cbn in Hfmt;
          [|exfalso; exact (Ok_not_raises _ Hfmt)].
        destruct mt as [|ch mt']; cbn [str_truthy] in Hfmt;
          [exfalso; exact (Ok_not_raises _ Hfmt)|].
        exists (ch :: mt'). split; [reflexivity|]. split; [discriminate|].
        apply split_on_second, getindex_raises. exact Hfmt.
      + right; left. split; [exact Himage|]. right. exact Hdec.
      + exfalso. exact (Ok_not_raises _ Hr).
    - rewrite Himage. intros [Hu|[[_ Hi]|[Ha _]]]; [| |discriminate].
      + exfalso. apply Hu. right; left.
      + destruct Hi as [(mt & Hmt & Hne & Hslash)|Hdec].
        * left. rewrite Hmt. cbn. destruct mt as [|ch mt']; [contradiction|].
          cbn [str_truthy]. apply getindex_raises, split_on_second. exact Hslash.
        * destruct (if opt_truthy (media_type c) then _ else _) as [fmt|e] eqn:Hfmt.
          { right. exists fmt. split; [reflexivity|].
            apply rbind_raises. left. exact Hdec. }
          { left. exists e. reflexivity. } }
  case_bool_decide as Hatt.
  { rewrite rbind_raises. split.
    - intros [Hpath|(path & _ & Hrest)];
        [|apply rbind_raises in Hrest as [Hdec|(bytes & _ & Hr)]].
      + right; right. split; [exact Hatt|]. left.
        destruct (file_name c); [exfalso; exact (Ok_not_raises _ Hpath) | reflexivity].
      + right; right. split; [exact Hatt|]. right. exact Hdec.
      + exfalso. exact (Ok_not_raises _ Hr).
    - rewrite Hatt. intros [Hu|[[Hi _]|[_ Ha]]]; [|discriminate|].
      + exfalso. apply Hu. right; right; left.
      + destruct Ha as [Hnone|Hdec].
        * left. rewrite Hnone. eexists; reflexivity.
        * destruct (file_name c) as [path|]; cbn.
          { right. exists path. split; [reflexivity|].
            apply rbind_raises. left. exact Hdec. }
          { left. eexists; reflexivity. } }
  split.
  - intros _. left. rewrite !not_elem_of_cons. repeat split; auto. apply not_elem_of_nil.
  - intros _. eexists; reflexivity.
Qed.

Lemma merged_top_k generation_params :
  merged_inference_config generation_params !! py "top_k"
  = DEFAULT_GENERATION_CONFIG !! py "top_k".
Proof.
  unfold merged_inference_config.
  apply lookup_union_r. destruct generation_params; reflexivity.
Qed.

Lemma get_model_id_returns model enable region :
  returns (get_model_id model enable region) ↔ is_Some (base_model_ids !! model).
Proof.
  destruct (base_model_ids !! model) as [b|] eqn:Hb.
  - rewrite (get_model_id_supported _ _ _ _ Hb). split; eexists; reflexivity.
  - rewrite (get_model_id_unsupported _ _ _ Hb).
    split; [intros [a Ha]; discriminate | intros [a Ha]; discriminate].
Qed.

Lemma guardrail_block_truthy (g : BedrockGuardrailsModel) :
  str_truthy (guardrail_arn g) && str_truthy (guardrail_version g)
  = bool_decide (guardrail_arn g ≠ [] ∧ guardrail_version g ≠ []).
Proof.
  destruct (guardrail_arn g), (guardrail_version g); cbn [str_truthy andb];
    symmetry; (apply bool_decide_eq_true_2 || apply bool_decide_eq_false_2);
    intuition congruence.
Qed.

(** The request returned by a call that raises nothing. *)
Lemma compose_Ok msgs model instruction streaming generation_params
    grounding_source guardrail (r : ConverseApiRequest) :
  compose_args_for_converse_api msgs model instruction streaming
    generation_params grounding_source guardrail = Ok r
  ↔ ∃ arg_msgs popped id,
      arg_messages guardrail grounding_source msgs = Ok arg_msgs
      ∧ DEFAULT_GENERATION_CONFIG !! py "top_k" = Some popped
      ∧ get_model_id model ENABLE_BEDROCK_CROSS_REGION_INFERENCE BEDROCK_REGION
        = Ok id
      ∧ r = {| inference_config :=
                 convert_dict_keys_to_camel_case
                   (delete (py "top_k")
                      (merged_inference_config generation_params));
               additional_model_request_fields := {[ py "top_k" := popped ]};
               model_id := id;
               messages := arg_msgs;
               stream := streaming;
               system := if opt_truthy instruction
                         then [ PDict [ (py "text",
                                         PStr (default [] instruction)) ] ]
                         else [];
               guardrailConfig := guardrail_block guardrail streaming |}.
Proof.
  unfold compose_args_for_converse_api, getitem.
  rewrite merged_top_k.
  destruct (arg_messages guardrail grounding_source msgs) as [ms|e]; cbn [rbind];
    [|split; [discriminate | intros (? & ? & ? & [=] & _)]].
  destruct (DEFAULT_GENERATION_CONFIG !! py "top_k") as [popped|]; cbn [rbind];
    [|split; [discriminate | intros (? & ? & ? & _ & [=] & _)]].
  destruct (get_model_id model _ _) as [id|e]; cbn [rbind];
    [|split; [discriminate | intros (? & ? & ? & _ & _ & [=] & _)]].
  assert (Hgoal : ∀ r0 : ConverseApiRequest,
    r0 = {| inference_config :=
              convert_dict_keys_to_camel_case
                (delete (py "top_k") (merged_inference_config generation_params));
            additional_model_request_fields := {[ py "top_k" := popped ]};
            model_id := id;
            messages := ms;
            stream := streaming;
            system := if opt_truthy instruction
                      then [ PDict [ (py "text", PStr (default [] instruction)) ] ]
                      else [];
            guardrailConfig := guardrail_block guardrail streaming |} →
    Ok r0 = Ok r ↔ ∃ arg_msgs popped0 id0,
      Ok ms = Ok arg_msgs ∧ Some popped = Some popped0 ∧ Ok id = Ok id0
      ∧ r = {| inference_config :=
                 convert_dict_keys_to_camel_case
                   (delete (py "top_k") (merged_inference_config generation_params));
               additional_model_request_fields := {[ py "top_k" := popped0 ]};
               model_id := id0;
               messages := arg_msgs;
               stream := streaming;
               system := if opt_truthy instruction
                         then [ PDict [ (py "text", PStr (default [] instruction)) ] ]
                         else [];
               guardrailConfig := guardrail_block guardrail streaming |}).
  { intros r0 ->. split.
    - intros [= <-]. exists ms, popped, id. auto.
    - intros (? & ? & ? & [= <-] & [= <-] & [= <-] & ->). reflexivity. }
  destruct guardrail as [g|]; [|apply Hgoal; reflexivity].
  unfold guardrail_block in *. rewrite guardrail_block_truthy.
  destruct (bool_decide _); [|apply Hgoal; reflexivity].
  destruct streaming; apply Hgoal; reflexivity.
Qed.

Lemma is_kept_spec (message : MessageModel) :
  is_kept message = true ↔ role message ∉ [py "system"; py "instruction"].
Proof. unfold is_kept. apply bool_decide_eq_true. Qed.

Lemma arg_message_raises guardrail grounding_source message :
  raises (arg_message guardrail grounding_source message)
  ↔ ∃ c, c ∈ content message
       ∧ raises (process_content guardrail grounding_source c (role message)).
Proof.
  unfold arg_message. rewrite rbind_raises, rmap_raises. split.
  - intros [H|(blocks & _ & H)]; [exact H | exfalso; exact (Ok_not_raises _ H)].
  - intros H. left. exact H.
Qed.

Lemma arg_messages_raises guardrail grounding_source msgs :
  raises (arg_messages guardrail grounding_source msgs)
  ↔ ∃ message c,
      message ∈ msgs
      ∧ (role message ∉ [py "system"; py "instruction"])
      ∧ c ∈ content message
      ∧ raises (process_content guardrail grounding_source c (role message)).
Proof.
  unfold arg_messages. rewrite rmap_raises. split.
  - intros (message & Hin & Hr).
    apply list_elem_of_In, filter_In in Hin as [Hin Hkept].
    apply arg_message_raises in Hr as (c & Hc & Hr).
    exists message, c. split; [apply list_elem_of_In; exact Hin|].
    split; [apply is_kept_spec; exact Hkept|]. auto.
  - intros (message & c & Hin & Hkept & Hc & Hr).
    exists message. split.
    + apply list_elem_of_In, filter_In.
      split; [apply list_elem_of_In; exact Hin | apply is_kept_spec; exact Hkept].
    + apply arg_message_raises. exists c. auto.
Qed.

(** A turn of one block: the message carries the blocks of that block. *)
Lemma arg_messages_single guardrail grounding_source role_ c blocks :
  role_ ∉ [py "system"; py "instruction"] →
  process_content guardrail grounding_source c role_ = Ok blocks →
  arg_messages guardrail grounding_source [ {| role := role_; content := [c] |} ]
  = Ok [ PDict [ (py "role", PStr role_); (py "content", PList blocks) ] ].
Proof.
  intros Hkept Hc. unfold arg_messages. cbn [List.filter].
  rewrite (proj2 (is_kept_spec {| role := role_; content := [c] |}) Hkept).
  unfold rmap at 1, arg_message. cbn [role content rmap rbind].
  rewrite Hc. cbn [rbind concat]. rewrite app_nil_r. reflexivity.
Qed.

Lemma compose_returns msgs model instruction streaming generation_params
    grounding_source guardrail :
  returns (compose_args_for_converse_api msgs model instruction streaming
             generation_params grounding_source guardrail)
  ↔ returns (arg_messages guardrail grounding_source msgs)
    ∧ is_Some (DEFAULT_GENERATION_CONFIG !! py "top_k")
    ∧ is_Some (base_model_ids !! model).
Proof.
  split.
  - intros [r Hr]. apply compose_Ok in Hr as (ms & popped & id & Hms & Hk & Hid & _).
    split; [exists ms; exact Hms|]. split; [exists popped; exact Hk|].
    apply (get_model_id_returns model ENABLE_BEDROCK_CROSS_REGION_INFERENCE
             BEDROCK_REGION).
    exists id. exact Hid.
  - intros ([ms Hms] & [popped Hk] & Hmodel).
    apply (get_model_id_returns model ENABLE_BEDROCK_CROSS_REGION_INFERENCE
             BEDROCK_REGION) in Hmodel as [id Hid].
    eexists. apply compose_Ok. exists ms, popped, id. eauto.
Qed.

Lemma user_is_kept : py "user" ∉ [py "system"; py "instruction"].
Proof. apply (bool_decide_unpack _). vm_compute. exact I. Qed.

Lemma assistant_is_kept : py "assistant" ∉ [py "system"; py "instruction"].
Proof. apply (bool_decide_unpack _). vm_compute. exact I. Qed.

Lemma text_block_plain guardrail grounding_source c role_ :
  content_type c = py "text" →
  grounding_active guardrail = false →
  role_ ≠ py "assistant" →
  process_content guardrail grounding_source c role_
  = Ok [ PDict [ (py "text", body c) ] ].
Proof.
  intros Ht Hg Hr. unfold process_content.
  rewrite (bool_decide_eq_true_2 _ Ht), Hg, andb_false_r.
  rewrite (bool_decide_eq_false_2 _ Hr). reflexivity.
Qed.

(** C2. A call with one user turn holding one text block, no guardrail, no
    grounding source and no instruction: a returned request has an empty
    [system], the single message [{"role": "user", "content": [{"text":
    body}]}] and no [guardrailConfig]; and the call does return when the
    model is one of the base mapping (and the default generation config has
    its [top_k]). *)
Theorem compose_single_user_text (c : ContentModel) model streaming generation_params :
  content_type c = py "text" →
  let call :=
    compose_args_for_converse_api
      [ {| role := py "user"; content := [c] |} ]
      model None streaming generation_params PNone None in
  (∀ r, call = Ok r →
     system r = []
     ∧ messages r =
         [ PDict [ (py "role", PStr (py "user"));
                   (py "content", PList [ PDict [ (py "text", body c) ] ]) ] ]
     ∧ guardrailConfig r = None)
  ∧ (is_Some (base_model_ids !! model) →
     is_Some (DEFAULT_GENERATION_CONFIG !! py "top_k") →
     returns call).
Proof.
  intros Ht call.
  assert (Hmsgs : arg_messages None PNone [ {| role := py "user"; content := [c] |} ]
                  = Ok [ PDict [ (py "role", PStr (py "user"));
                                 (py "content", PList [ PDict [ (py "text", body c) ] ]) ] ]).
  { apply arg_messages_single; [exact user_is_kept|].
    apply text_block_plain; [exact Ht | reflexivity | discriminate]. }
  split.
  - intros r Hr. apply compose_Ok in Hr as (ms & popped & id & Hms & _ & _ & ->).
    rewrite Hmsgs in Hms. injection Hms as <-. cbn. auto.
  - intros Hmodel Hk. apply compose_returns.
    split; [eexists; exact Hmsgs | auto].
Qed.

(** C3. A user text block composed under a guardrail whose grounding
    threshold is positive becomes two blocks, the grounding source first and
    the guarded query second; every other block that is translated becomes
    exactly one block; and a call made of one such user turn returns a
    request whose message holds exactly those two blocks. *)
Theorem grounded_user_text_two_blocks :
  (∀ (g : BedrockGuardrailsModel) (grounding_source : pyval) (c : ContentModel),
     content_type c = py "text" →
     num_gt (grounding_threshold g) (num_of_int 0) = true →
     process_content (Some g) grounding_source c (py "user")
     = Ok [ PDict [ (py "guardContent", grounding_source) ];
            PDict [ (py "guardContent",
                     PDict [ (py "text",
                              PDict [ (py "text", body c);
                                      (py "qualifiers",
                                       PList [PStr (py "query")]) ]) ]) ] ])
  ∧ (∀ guardrail grounding_source (c : ContentModel) role_ blocks,
       process_content guardrail grounding_source c role_ = Ok blocks →
       length blocks ≠ 1 →
       length blocks = 2
       ∧ content_type c = py "text"
       ∧ role_ = py "user"
       ∧ ∃ g, guardrail = Some g
            ∧ num_gt (grounding_threshold g) (num_of_int 0) = true)
  ∧ (∀ (g : BedrockGuardrailsModel) grounding_source (c : ContentModel)
       model instruction streaming generation_params,
       content_type c = py "text" →
       num_gt (grounding_threshold g) (num_of_int 0) = true →
       is_Some (base_model_ids !! model) →
       is_Some (DEFAULT_GENERATION_CONFIG !! py "top_k") →
       ∃ r, compose_args_for_converse_api
              [ {| role := py "user"; content := [c] |} ]
              model instruction streaming generation_params
              grounding_source (Some g) = Ok r
          ∧ messages r =
              [ PDict
                  [ (py "role", PStr (py "user"));
                    (py "content",
                     PList
                       [ PDict [ (py "guardContent", grounding_source) ];
                         PDict [ (py "guardContent",
                                  PDict [ (py "text",
                                           PDict [ (py "text", body c);
                                                   (py "qualifiers",
                                                    PList [PStr (py "query")]) ]) ]) ] ]) ] ]).
Proof.
  assert (Hblock : ∀ (g : BedrockGuardrailsModel) (grounding_source : pyval)
                     (c : ContentModel),
     content_type c = py "text" →
     num_gt (grounding_threshold g) (num_of_int 0) = true →
     process_content (Some g) grounding_source c (py "user")
     = Ok [ PDict [ (py "guardContent", grounding_source) ];
            PDict [ (py "guardContent",
                     PDict [ (py "text",
                              PDict [ (py "text", body c);
                                      (py "qualifiers",
                                       PList [PStr (py "query")]) ]) ]) ] ]).
  { intros g gs c Ht Hg. unfold process_content.
    rewrite (bool_decide_eq_true_2 _ Ht). cbn [grounding_active].
    rewrite Hg. reflexivity. }
  split; [exact Hblock|]. split.
  2:{ intros g gs c model instruction streaming gp Ht Hg Hmodel Hk.
      pose proof (arg_messages_single (Some g) gs _ c _ user_is_kept
                    (Hblock g gs c Ht Hg)) as Hmsgs.
      destruct (proj2 (compose_returns
                         [ {| role := py "user"; content := [c] |} ]
                         model instruction streaming gp gs (Some g))) as [r Hr].
      { split; [eexists; exact Hmsgs | auto]. }
      exists r. split; [exact Hr|].
      apply compose_Ok in Hr as (ms & popped & id & Hms & _ & _ & ->).
      rewrite Hmsgs in Hms. injection Hms as <-. reflexivity. }
  - intros guardrail gs c role_ blocks. unfold process_content.
    case_bool_decide as Ht.
    { case_bool_decide as Hu; cbn [andb].
      - destruct guardrail as [g|]; cbn [grounding_active].
        + destruct (num_gt _ _) eqn:Hg.
          * intros [= <-] _. repeat split; eauto.
          * destruct (bool_decide _); intros [= <-] Hlen; cbn in Hlen; congruence.
        + destruct (bool_decide _); intros [= <-] Hlen; cbn in Hlen; congruence.
      - destruct (bool_decide _); intros [= <-] Hlen; cbn in Hlen; congruence. }
    case_bool_decide as Hi.
    { destruct (if opt_truthy _ then _ else _); cbn [rbind]; [|discriminate].
      destruct (b64decode _); cbn [rbind]; [|discriminate].
      intros [= <-] Hlen; cbn in Hlen; congruence. }
    case_bool_decide as Ha; [|discriminate].
    destruct (Path _); cbn [rbind]; [|discriminate].
    destruct (b64decode _); cbn [rbind]; [|discriminate].
    intros [= <-] Hlen; cbn in Hlen; congruence.
Qed.

(** C8. An assistant text block whose body is not a [str] becomes the single
    block [{"text": None}], whatever the guardrail; a call made of one such
    turn returns a request whose message carries that block. *)
Theorem assistant_non_string_text :
  (∀ guardrail grounding_source (c : ContentModel),
     content_type c = py "text" →
     is_str (body c) = false →
     process_content guardrail grounding_source c (py "assistant")
     = Ok [ PDict [ (py "text", PNone) ] ])
  ∧ (∀ (c : ContentModel) model instruction streaming generation_params
       grounding_source guardrail,
       content_type c = py "text" →
       is_str (body c) = false →
       is_Some (base_model_ids !! model) →
       is_Some (DEFAULT_GENERATION_CONFIG !! py "top_k") →
       ∃ r, compose_args_for_converse_api
              [ {| role := py "assistant"; content := [c] |} ]
              model instruction streaming generation_params
              grounding_source guardrail = Ok r
          ∧ messages r =
              [ PDict [ (py "role", PStr (py "assistant"));
                        (py "content", PList [ PDict [ (py "text", PNone) ] ]) ] ]).
Proof.
  assert (Hblock : ∀ guardrail grounding_source (c : ContentModel),
     content_type c = py "text" →
     is_str (body c) = false →
     process_content guardrail grounding_source c (py "assistant")
     = Ok [ PDict [ (py "text", PNone) ] ]).
  { intros guardrail gs c Ht Hs. unfold process_content.
    rewrite (bool_decide_eq_true_2 _ Ht), Hs.
    rewrite (bool_decide_eq_false_2 (py "assistant" = py "user")) by discriminate.
    cbn [andb]. rewrite (bool_decide_eq_true_2 _ eq_refl). reflexivity. }
  split; [exact Hblock|].
  intros c model instruction streaming gp gs guardrail Ht Hs Hmodel Hk.
  pose proof (arg_messages_single guardrail gs _ c _ assistant_is_kept
                (Hblock guardrail gs c Ht Hs)) as Hmsgs.
  destruct (proj2 (compose_returns
                     [ {| role := py "assistant"; content := [c] |} ]
                     model instruction streaming gp gs guardrail)) as [r Hr].
  { split; [eexists; exact Hmsgs | auto]. }
  exists r. split; [exact Hr|].
  apply compose_Ok in Hr as (ms & popped & id & Hms & _ & _ & ->).
  rewrite Hmsgs in Hms. injection Hms as <-. reflexivity.
Qed.

(** C7. A returned request carries a [guardrailConfig] exactly when a
    guardrail was given with an identifier and a version (both non-empty);
    the block then holds that identifier and version, its [trace] is
    ["enabled"], and it has [streamProcessingMode], set to ["async"], exactly
    when the call is a streaming one. *)
Theorem compose_guardrail_config msgs model instruction streaming
    generation_params grounding_source guardrail (r : ConverseApiRequest) :
  compose_args_for_converse_api msgs model instruction streaming
    generation_params grounding_source guardrail = Ok r →
  (is_Some (guardrailConfig r)
   ↔ ∃ g, guardrail = Some g
        ∧ guardrail_arn g ≠ [] ∧ guardrail_version g ≠ [])
  ∧ (∀ config, guardrailConfig r = Some config →
       trace config = py "enabled"
       ∧ (∃ g, guardrail = Some g
             ∧ guardrailIdentifier config = guardrail_arn g
             ∧ guardrailVersion config = guardrail_version g)
       ∧ (streamProcessingMode config = Some (py "async") ↔ streaming = true)
       ∧ (streamProcessingMode config = None ↔ streaming = false)).
Proof.
  intros Hr. apply compose_Ok in Hr as (ms & popped & id & _ & _ & _ & ->).
  cbn [guardrailConfig]. unfold guardrail_block.
  destruct guardrail as [g|].
  - case_bool_decide as Hg.
    + split.
      * split; [intros _; exists g; tauto | intros _; eexists; reflexivity].
      * intros config [= <-]. cbn.
        split; [reflexivity|]. split; [exists g; auto|].
        destruct streaming; split; split; congruence.
    + split.
      * split; [intros [? [=]] | intros (g' & [= <-] & Harn & Hver); tauto].
      * intros config [=].
  - split.
    + split; [intros [? [=]] | intros (g' & [=] & _)].
    + intros config [=].
Qed.

(** C9, amended. The [system] field of a returned request is the one-entry
    list [[{"text": instruction}]] exactly when a non-empty instruction string
    was given, and the empty list otherwise, that is for no instruction and
    for the empty string alike; it is a list in every case. *)
Theorem compose_system msgs model instruction streaming generation_params
    grounding_source guardrail (r : ConverseApiRequest) :
  compose_args_for_converse_api msgs model instruction streaming
    generation_params grounding_source guardrail = Ok r →
  (∀ text, instruction = Some text → text ≠ [] →
     system r = [ PDict [ (py "text", PStr text) ] ])
  ∧ (instruction = None ∨ instruction = Some [] → system r = [])
  ∧ (system r ≠ [] ↔ ∃ text, instruction = Some text ∧ text ≠ []).
Proof.
  intros Hr. apply compose_Ok in Hr as (ms & popped & id & _ & _ & _ & ->).
  cbn [system].
  destruct instruction as [[|ch text]|]; cbn [opt_truthy str_truthy default].
  - split; [intros text [= <-] Hne; contradiction|].
    split; [reflexivity|].
    split; [intros Hne; contradiction | intros (text & [= <-] & Hne); contradiction].
  - split; [intros text' [= <-] _; reflexivity|].
    split; [intros [[=]|[=]]|].
    split; [intros _; eexists; split; [reflexivity|discriminate] | discriminate].
  - split; [intros text [=]|].
    split; [reflexivity|].
    split; [intros Hne; contradiction | intros (text & [=] & _)].
Qed.

(** C6, amended. The call raises exactly when a content block of a turn that
    is kept (role neither ["system"] nor ["instruction"]) has a type other
    than text, image, attachment, or is a malformed image or attachment; or
    the default generation config has no [top_k]; or the model is not in the
    base mapping. A call either raises or returns a complete request, never
    both; blocks of system and instruction turns are not looked at. *)
Theorem compose_raises_iff msgs model instruction streaming generation_params
    grounding_source guardrail :
  let call :=
    compose_args_for_converse_api msgs model instruction streaming
      generation_params grounding_source guardrail in
  (raises call
   ↔ (∃ message c,
        message ∈ msgs
        ∧ (role message ∉ [py "system"; py "instruction"])
        ∧ c ∈ content message
        ∧ (unsupported_type c ∨ malformed_image c ∨ malformed_attachment c))
     ∨ DEFAULT_GENERATION_CONFIG !! py "top_k" = None
     ∨ base_model_ids !! model = None)
  ∧ (raises call ∨ returns call)
  ∧ ¬ (raises call ∧ returns call).
Proof.
  intros call.
  split; [|split; [destruct (returns_or_raises call); auto
                  | intros [Hr Hk]; exact (not_returns_and_raises _ (conj Hk Hr))]].
  rewrite raises_not_returns. unfold call. rewrite compose_returns.
  split.
  - intros Hn.
    destruct (returns_or_raises (arg_messages guardrail grounding_source msgs))
      as [Hok|Hr].
    + destruct (DEFAULT_GENERATION_CONFIG !! py "top_k") eqn:Hk; [|auto].
      destruct (base_model_ids !! model) eqn:Hm; [|auto].
      exfalso. apply Hn. split; [exact Hok|]. split; eexists; reflexivity.
    + left. apply arg_messages_raises in Hr as (message & c & H1 & H2 & H3 & H4).
      exists message, c. rewrite <- process_content_raises. eauto.
  - intros [(message & c & H1 & H2 & H3 & H4)|[Hk|Hm]] (Hok & Hk' & Hm').
    + apply (not_returns_and_raises _ (conj Hok
               (proj2 (arg_messages_raises guardrail grounding_source msgs)
                  (ex_intro _ message (ex_intro _ c
                     (conj H1 (conj H2 (conj H3
                        (proj2 (process_content_raises guardrail grounding_source
                                  c (role message)) H4))))))))).
    + rewrite Hk in Hk'. destruct Hk' as [? [=]].
    + rewrite Hm in Hm'. destruct Hm' as [? [=]].
Qed.

(** C4, amended. An attachment block with a file name and a decodable body
    becomes exactly one document block: its format is the extension of the
    file name when the allow-list has it and ["txt"] otherwise; its name is
    the stem of the file name with the characters outside the allowed class
    removed, runs of whitespace collapsed to one space, and leading and
    trailing whitespace trimmed.  For ["My Résumé (v2).pdf!!"] the name is
    ["My Rsum (v2)"] and the format ["txt"]. *)
Theorem attachment_document :
  (∀ guardrail grounding_source (c : ContentModel) role_ path bytes,
     content_type c = py "attachment" →
     file_name c = Some path →
     b64decode (body c) = Ok bytes →
     ∃ format name,
       process_content guardrail grounding_source c role_
       = Ok [ PDict [ (py "document",
                       PDict [ (py "format", PStr format);
                               (py "name", PStr name);
                               (py "source",
                                PDict [ (py "bytes", PBytes bytes) ]) ]) ] ]
       ∧ format = (let ext := drop 1 (path_suffix path) in
                   if bool_decide (ext ∈ allow_list) then ext else py "txt")
       ∧ name = strip (collapse_spaces (remove_invalid (path_stem path)))
       ∧ Forall name_char name
       ∧ single_spaced name
       ∧ (∀ ch, head name = Some ch → is_space ch = false)
       ∧ (∀ ch, last name = Some ch → is_space ch = false)
       ∧ visible name =
           List.filter (λ ch, is_valid_char ch && negb (is_space ch))
                       (path_stem path))
  ∧ path_stem Sample.resume_file_name
    = py "My R" ++ [233%N] ++ py "sum" ++ [233%N] ++ py " (v2)"
  ∧ _convert_to_valid_file_name (path_stem Sample.resume_file_name)
    = py "My Rsum (v2)"
  ∧ _get_converse_supported_format (drop 1 (path_suffix Sample.resume_file_name))
    = py "txt".
Proof.
  split; [|split; [|split]; vm_compute; reflexivity].
  intros guardrail gs c role_ path bytes Ha Hpath Hbytes.
  exists (_get_converse_supported_format (drop 1 (path_suffix path))),
         (_convert_to_valid_file_name (path_stem path)).
  split.
  - unfold process_content.
    rewrite (bool_decide_eq_true_2 _ Ha).
    rewrite (bool_decide_eq_false_2 (content_type c = py "text")),
            (bool_decide_eq_false_2 (content_type c = py "image"))
      by (rewrite Ha; discriminate).
    rewrite Hpath, Hbytes. reflexivity.
  - split; [apply supported_format_spec|].
    split; [reflexivity|].
    apply valid_file_name_spec.
Qed.

End Facts.
End ComposerFacts.

(** ** Properties of the price calculator *)

Module PricingFacts.
Import Composer Pricing.

Section Facts.
Context {NUM : Numeric} {ENV : Environment}.

Lemma region_price_table_entry (region model field : pystr) :
  region_price region model field = table_entry region model field.
Proof.
  unfold region_price, table_entry.
  destruct (BEDROCK_PRICING !! region) as [by_model|];
    [|apply lookup_empty].
  change (default ∅ (Some by_model)) with by_model.
  destruct (by_model !! model); [reflexivity | apply lookup_empty].
Qed.

Lemma default_price_table_entry (model field : pystr) (p : num) :
  default_price model field = Ok p ↔ table_entry (py "default") model field = Some p.
Proof.
  unfold default_price, table_entry, getitem.
  destruct (BEDROCK_PRICING !! py "default") as [by_model|]; cbn [rbind];
    [|split; discriminate].
  destruct (by_model !! model) as [by_field|]; cbn [rbind]; [|split; discriminate].
  destruct (by_field !! field); split; congruence.
Qed.

(** The fallback is looked up whatever the region holds. *)
Lemma default_price_absent (model field : pystr) by_model :
  BEDROCK_PRICING !! py "default" = Some by_model →
  by_model !! model = None →
  default_price model field = Raise (KeyError model).
Proof.
  intros Hd Hm. unfold default_price, getitem. rewrite Hd. cbn [rbind].
  rewrite Hm. reflexivity.
Qed.

Lemma unit_price_spec (region model field : pystr) (fallback : num) :
  table_entry (py "default") model field = Some fallback →
  ∃ p, spec_unit_price region model field = Some p
     ∧ unit_price region model field = Ok p.
Proof.
  intros Hd. unfold unit_price, spec_unit_price.
  rewrite (proj2 (default_price_table_entry _ _ _) Hd). cbn [rbind].
  rewrite region_price_table_entry, Hd.
  destruct (table_entry region model field) as [p|]; cbn [default]; eauto.
Qed.

(** C5, amended. For a model whose entry under ["default"] has both unit
    prices, the price is [input_price * input_tokens / 1000.0 + output_price
    * output_tokens / 1000.0], each unit price being the region's entry for
    that field, and the default region's entry when the region, the model or
    the field is missing there. For a model absent from the default table
    the call raises a [KeyError], whatever the region's table holds. *)
Theorem calculate_price_spec :
  (∀ model input_tokens output_tokens region default_input default_output,
     table_entry (py "default") model (py "input") = Some default_input →
     table_entry (py "default") model (py "output") = Some default_output →
     ∃ input_price output_price,
       spec_unit_price region model (py "input") = Some input_price
       ∧ spec_unit_price region model (py "output") = Some output_price
       ∧ calculate_price model input_tokens output_tokens region
         = Ok (num_add
                 (num_div (num_mul input_price (num_of_int input_tokens)) num_1000)
                 (num_div (num_mul output_price (num_of_int output_tokens))
                    num_1000)))
  ∧ (∀ model input_tokens output_tokens region,
       BEDROCK_PRICING !! py "default" = None →
       calculate_price model input_tokens output_tokens region
       = Raise (KeyError (py "default")))
  ∧ (∀ model input_tokens output_tokens region by_model,
       BEDROCK_PRICING !! py "default" = Some by_model →
       by_model !! model = None →
       calculate_price model input_tokens output_tokens region
       = Raise (KeyError model)).
Proof.
  split; [|split].
  - intros model it ot region di do_ Hi Ho.
    destruct (unit_price_spec region model (py "input") di Hi) as (ip & Hsi & Hui).
    destruct (unit_price_spec region model (py "output") do_ Ho) as (op & Hso & Huo).
    exists ip, op. split; [exact Hsi|]. split; [exact Hso|].
    unfold calculate_price. rewrite Hui, Huo. reflexivity.
  - intros model it ot region Hd.
    unfold calculate_price, unit_price, default_price, getitem.
    rewrite Hd. reflexivity.
  - intros model it ot region by_model Hd Hm.
    unfold calculate_price, unit_price.
    rewrite (default_price_absent model (py "input") by_model Hd Hm). reflexivity.
Qed.

(** C10. When the default table has no entry for the model, the call raises
    a [KeyError] even though the region's table holds both the input and the
    output price of that model: each per-field lookup evaluates its default
    entry first. *)
Theorem calculate_price_needs_default model input_tokens output_tokens region
    by_model (region_input region_output : num) :
  BEDROCK_PRICING !! py "default" = Some by_model →
  by_model !! model = None →
  region_price region model (py "input") = Some region_input →
  region_price region model (py "output") = Some region_output →
  unit_price region model (py "input") = Raise (KeyError model)
  ∧ unit_price region model (py "output") = Raise (KeyError model)
  ∧ calculate_price model input_tokens output_tokens region
    = Raise (KeyError model).
Proof.
  intros Hd Hm _ _.
  assert (Hu : ∀ field, unit_price region model field = Raise (KeyError model)).
  { intros field. unfold unit_price.
    rewrite (default_price_absent model field by_model Hd Hm). reflexivity. }
  split; [apply Hu|]. split; [apply Hu|].
  unfold calculate_price. rewrite Hu. reflexivity.
Qed.

End Facts.
End PricingFacts.

(** ** The properties at concrete inputs, in the sample environment *)

Module Examples.
Import Resolver Files Composer Pricing Sample.
Import ResolverFacts FilesFacts ComposerFacts PricingFacts.

(** Cross-region resolution of [claude-v3-haiku] from [ap-southeast-2]. *)
Lemma get_model_id_cross_region_haiku :
  ∃ b, base_model_ids !! haiku = Some b
     ∧ get_model_id haiku true (py "ap-southeast-2") = Ok (py "au" ++ py "." ++ b)
     ∧ get_model_id haiku false (py "ap-southeast-2") = Ok b
     ∧ get_model_id haiku true (py "ap-northeast-1") = Ok b
     ∧ get_model_id (py "claude-v2") true (py "us-east-1")
       = Ok (py "anthropic.claude-v2:1").
Proof.
  destruct get_model_id_cross_region as [Hin Hout].
  destruct (Hin haiku) as (b & Hb & Hon & Hoff & Hnone).
  { apply (bool_decide_unpack _). vm_compute. exact I. }
  exists b. split; [exact Hb|].
  split; [apply Hon; reflexivity|].
  split; [apply Hoff|].
  split; [apply Hnone; reflexivity|].
  apply Hout; [reflexivity|].
  apply (bool_decide_unpack _). vm_compute. exact I.
Defined.

(** One user text turn, nothing else. *)
Lemma compose_single_user_text_hi :
  ∃ r, compose_args_for_converse_api
         [ user_turn (text_block (py "hi")) ] haiku None false None PNone None
       = Ok r
     ∧ system r = []
     ∧ messages r =
         [ PDict [ (py "role", PStr (py "user"));
                   (py "content",
                    PList [ PDict [ (py "text", PStr (py "hi")) ] ]) ] ]
     ∧ guardrailConfig r = None.
Proof.
  destruct (compose_single_user_text (text_block (py "hi")) haiku false None eq_refl)
    as [Hprops Hreturns].
  destruct Hreturns as [r Hr].
  - eexists. vm_compute. reflexivity.
  - eexists. vm_compute. reflexivity.
  - exists r. split; [exact Hr|]. apply Hprops. exact Hr.
Defined.

(** A user text block under a guardrail with grounding threshold 0.7. *)
Lemma grounded_user_text_two_blocks_hi :
  process_content (Some (guardrail (q 7 10))) (PStr (py "source"))
    (text_block (py "hi")) (py "user")
  = Ok [ PDict [ (py "guardContent", PStr (py "source")) ];
         PDict [ (py "guardContent",
                  PDict [ (py "text",
                           PDict [ (py "text", PStr (py "hi"));
                                   (py "qualifiers",
                                    PList [PStr (py "query")]) ]) ]) ] ].
Proof.
  apply (proj1 grounded_user_text_two_blocks
           (guardrail (q 7 10)) (PStr (py "source")) (text_block (py "hi")));
    reflexivity.
Defined.

(** The document block of ["My Résumé (v2).pdf!!"]. *)
Lemma attachment_document_resume :
  ∃ format name,
    process_content None PNone (attachment_block resume_file_name) (py "user")
    = Ok [ PDict [ (py "document",
                    PDict [ (py "format", PStr format);
                            (py "name", PStr name);
                            (py "source", PDict [ (py "bytes", PBytes []) ]) ]) ] ]
    ∧ Forall name_char name
    ∧ single_spaced name.
Proof.
  destruct (proj1 attachment_document None PNone
              (attachment_block resume_file_name) (py "user")
              resume_file_name [])
    as (format & name & Hblock & _ & _ & Hchars & Hspaces & _);
    [reflexivity..|].
  exists format, name. auto.
Defined.

(** C4, as stated, fails: the name emitted for ["My Résumé (v2).pdf!!"] is
    ["My Rsum (v2)"], its format ["txt"]; no dot survives the sanitiser, which
    moreover only sees the stem. *)
Lemma resume_name_is_not_dotted :
  process_content None PNone (attachment_block resume_file_name) (py "user")
  = Ok [ PDict [ (py "document",
                  PDict [ (py "format", PStr (py "txt"));
                          (py "name", PStr (py "My Rsum (v2)"));
                          (py "source", PDict [ (py "bytes", PBytes []) ]) ]) ] ]
  ∧ py "My Rsum (v2)" ≠ py "My Rsum (v2).pdf"
  ∧ _convert_to_valid_file_name resume_file_name ≠ py "My Rsum (v2).pdf".
Proof.
  split; [vm_compute; reflexivity|].
  split; vm_compute; discriminate.
Qed.

(** The price of 1000 input and 500 output tokens of [claude-v3-haiku] in
    ["us-east-1"]: the region's input price, the default output price. *)
Lemma calculate_price_spec_haiku :
  ∃ input_price output_price,
    spec_unit_price (py "us-east-1") haiku (py "input") = Some input_price
    ∧ spec_unit_price (py "us-east-1") haiku (py "output") = Some output_price
    ∧ calculate_price haiku 1000 500 (py "us-east-1")
      = Ok (num_add
              (num_div (num_mul input_price (num_of_int 1000)) num_1000)
              (num_div (num_mul output_price (num_of_int 500)) num_1000)).
Proof.
  exact (proj1 calculate_price_spec haiku 1000%Z 500%Z (py "us-east-1")
           (q 25 100000) (q 125 100000) eq_refl eq_refl).
Defined.

(** C5, as stated, fails: ["us-east-1"] holds both prices of
    [claude-v3.5-haiku], so no field needs a fallback, and yet the call
    raises, the model being absent from ["default"]. *)
Lemma region_priced_model_raises :
  table_entry (py "us-east-1") (py "claude-v3.5-haiku") (py "input")
  = Some (q 1 1000)
  ∧ table_entry (py "us-east-1") (py "claude-v3.5-haiku") (py "output")
    = Some (q 5 1000)
  ∧ ¬ returns (calculate_price (py "claude-v3.5-haiku") 1000 500 (py "us-east-1")).
Proof.
  split; [reflexivity|]. split; [reflexivity|].
  intros [p Hp]. vm_compute in Hp. discriminate.
Qed.

(** The same call, through the theorem on the missing default entry. *)
Lemma calculate_price_needs_default_haiku35 :
  calculate_price (py "claude-v3.5-haiku") 1000 500 (py "us-east-1")
  = Raise (KeyError (py "claude-v3.5-haiku")).
Proof.
  refine (proj2 (proj2 (calculate_price_needs_default
            (py "claude-v3.5-haiku") 1000%Z 500%Z (py "us-east-1")
            (list_to_map [ (haiku, haiku_prices) ])
            (q 1 1000) (q 5 1000) _ _ _ _)));
    reflexivity.
Defined.

(** C6, as stated, fails: a block of an unsupported type inside a system turn
    is never looked at, and the call returns. *)
Lemma system_turn_unsupported_block_returns :
  let msgs := [ {| role := py "system"; content := [video_block] |} ] in
  (∃ message c, message ∈ msgs ∧ c ∈ content message ∧ unsupported_type c)
  ∧ is_Some (base_model_ids !! haiku)
  ∧ ¬ raises (compose_args_for_converse_api msgs haiku None false None PNone None).
Proof.
  intros msgs. split; [|split].
  - exists {| role := py "system"; content := [video_block] |}, video_block.
    split; [left|]. split; [left|].
    apply (bool_decide_unpack _). vm_compute. exact I.
  - eexists. vm_compute. reflexivity.
  - intros [e He]. vm_compute in He. discriminate.
Qed.

(** The same block in a user turn makes the call raise. *)
Lemma compose_raises_iff_video :
  raises (compose_args_for_converse_api
            [ user_turn video_block ] haiku None false None PNone None).
Proof.
  apply (proj1 (compose_raises_iff [ user_turn video_block ] haiku None false
                  None PNone None)).
  left. exists (user_turn video_block), video_block.
  split; [left|]. split; [exact user_is_kept|]. split; [left|].
  left. apply (bool_decide_unpack _). vm_compute. exact I.
Defined.

(** A streaming call under a guardrail. *)
Lemma compose_guardrail_config_streaming :
  ∃ r config,
    compose_args_for_converse_api
      [ user_turn (text_block (py "hi")) ] haiku None true None PNone
      (Some (guardrail (q 0 1))) = Ok r
    ∧ guardrailConfig r = Some config
    ∧ trace config = py "enabled"
    ∧ streamProcessingMode config = Some (py "async").
Proof.
  assert (Hcall : returns
    (compose_args_for_converse_api
       [ user_turn (text_block (py "hi")) ] haiku None true None PNone
       (Some (guardrail (q 0 1))))).
  { eexists. vm_compute. reflexivity. }
  destruct Hcall as [r Hr].
  destruct (compose_guardrail_config _ _ _ _ _ _ _ r Hr) as [Hpresent Hfields].
  destruct (proj2 Hpresent) as [config Hconfig].
  { exists (guardrail (q 0 1)). split; [reflexivity|]. split; discriminate. }
  exists r, config. split; [exact Hr|]. split; [exact Hconfig|].
  destruct (Hfields config Hconfig) as (Htrace & _ & Hasync & _).
  split; [exact Htrace|]. apply Hasync. reflexivity.
Defined.

(** An assistant turn whose text body is a tool-use structure, not a [str]. *)
Lemma assistant_non_string_text_tool_use :
  process_content None PNone
    {| content_type := py "text"; media_type := None;
       body := PDict [ (py "toolUseId", PStr (py "t1")) ]; file_name := None |}
    (py "assistant")
  = Ok [ PDict [ (py "text", PNone) ] ].
Proof.
  apply (proj1 assistant_non_string_text); reflexivity.
Defined.

(** A call with the instruction ["Be brief."]. *)
Lemma compose_system_brief :
  ∃ r, compose_args_for_converse_api
         [ user_turn (text_block (py "hi")) ] haiku (Some (py "Be brief."))
         false None PNone None = Ok r
     ∧ system r = [ PDict [ (py "text", PStr (py "Be brief.")) ] ].
Proof.
  assert (Hcall : returns
    (compose_args_for_converse_api
       [ user_turn (text_block (py "hi")) ] haiku (Some (py "Be brief."))
       false None PNone None)).
  { eexists. vm_compute. reflexivity. }
  destruct Hcall as [r Hr]. exists r. split; [exact Hr|].
  apply (proj1 (compose_system _ _ _ _ _ _ _ r Hr) (py "Be brief."));
    [reflexivity | discriminate].
Defined.

(** C9, as stated, fails: the empty string is an instruction string, and the
    request composed with it has an empty [system]. *)
Lemma empty_instruction_empty_system :
  ∃ r, compose_args_for_converse_api
         [ user_turn (text_block (py "hi")) ] haiku (Some [])
         false None PNone None = Ok r
     ∧ system r = [].
Proof.
  eexists. split; [vm_compute; reflexivity | reflexivity].
Qed.

End Examples.

(** * Further properties *)

(** ** The resolver on every input *)

Module ResolverMore.
Import Resolver ResolverFacts.

Lemma base_model_ids_dom (model : pystr) :
  is_Some (base_model_ids !! model) ↔ model ∈ logical_models.
Proof.
  split.
  - intros [b Hb]. apply elem_of_list_to_map_2 in Hb.
    apply (list_elem_of_fmap_2 fst) in Hb. exact Hb.
  - intros Hin. destruct (base_model_ids !! model) eqn:Hb; [eauto|].
    apply not_elem_of_list_to_map in Hb. contradiction.
Qed.

Lemma region_prefix_values (region p : pystr) :
  supported_region_prefixes !! region = Some p → p ∈ region_prefixes.
Proof.
  intros H.
  assert (Hall : map_Forall (λ _ v, v ∈ region_prefixes) supported_region_prefixes).
  { apply (bool_decide_unpack _). vm_compute. exact I. }
  exact (Hall _ _ H).
Qed.

Lemma get_model_id_returns_logical model enable region :
  returns (get_model_id model enable region) ↔ model ∈ logical_models.
Proof.
  rewrite <- base_model_ids_dom. apply ComposerFacts.get_model_id_returns.
Qed.

Lemma get_model_id_not_logical model enable region :
  model ∉ logical_models →
  get_model_id model enable region
  = Raise (ValueError (py "Unsupported model: " ++ model)).
Proof.
  intros Hout. apply get_model_id_unsupported.
  destruct (base_model_ids !! model) eqn:Hb; [|reflexivity].
  exfalso. apply Hout, base_model_ids_dom. eauto.
Qed.

(** The resolver returns exactly on the eleven logical names and its result
    is never empty; on any other name it raises [ValueError("Unsupported
    model: <name>")], whatever the flag and the region. *)
Theorem get_model_id_total_on_logical_models model enable region :
  (returns (get_model_id model enable region) ↔ model ∈ logical_models)
  ∧ (model ∉ logical_models →
     get_model_id model enable region
     = Raise (ValueError (py "Unsupported model: " ++ model)))
  ∧ (∀ id, get_model_id model enable region = Ok id → id ≠ []).
Proof.
  split; [|split].
  - rewrite <- base_model_ids_dom.
    destruct (base_model_ids !! model) as [b|] eqn:Hb.
    + rewrite (get_model_id_supported _ _ _ _ Hb).
      split; [intros _; eauto | intros _; eexists; reflexivity].
    + rewrite (get_model_id_unsupported _ _ _ Hb).
      split; [intros [? [=]] | intros [? [=]]].
  - intros Hout. apply get_model_id_unsupported.
    destruct (base_model_ids !! model) eqn:Hb; [|reflexivity].
    exfalso. apply Hout, base_model_ids_dom. eauto.
  - intros id Hid.
    destruct (base_model_ids !! model) as [b|] eqn:Hb.
    + rewrite (get_model_id_supported _ _ _ _ Hb) in Hid.
      pose proof (base_model_ids_truthy _ _ Hb) as Hne.
      injection Hid as <-.
      destruct (enable && _); [|destruct b; [discriminate|discriminate]].
      destruct (supported_region_prefixes !! region) as [p|] eqn:Hp.
      * pose proof (region_prefixes_truthy _ _ Hp). destruct p; discriminate.
      * destruct b; discriminate.
    + rewrite (get_model_id_unsupported _ _ _ Hb) in Hid. discriminate.
Qed.

(** A resolved id is the base id of the model, alone or behind one of the
    prefixes ["us."], ["eu."], ["au."]; a prefix appears only with
    cross-region inference enabled, on a cross-region model. *)
Theorem get_model_id_shape model enable region id :
  get_model_id model enable region = Ok id →
  ∃ b, base_model_ids !! model = Some b
     ∧ (id = b
        ∨ (enable = true
           ∧ model ∈ cross_region_inference_models
           ∧ ∃ p, p ∈ region_prefixes
                ∧ supported_region_prefixes !! region = Some p
                ∧ id = p ++ py "." ++ b)).
Proof.
  intros Hid.
  destruct (base_model_ids !! model) as [b|] eqn:Hb;
    [|rewrite (get_model_id_unsupported _ _ _ Hb) in Hid; discriminate].
  exists b. split; [reflexivity|].
  rewrite (get_model_id_supported _ _ _ _ Hb) in Hid. injection Hid as <-.
  destruct enable; cbn [andb]; [|left; reflexivity].
  case_bool_decide as Hin; [|left; reflexivity].
  destruct (supported_region_prefixes !! region) as [p|] eqn:Hp; [|left; reflexivity].
  right. split; [reflexivity|]. split; [exact Hin|].
  exists p. split; [exact (region_prefix_values _ _ Hp)|]. auto.
Qed.

(** What the resolver computes from the looked-up prefix alone. *)
Lemma get_model_id_by_prefix model enable region b :
  base_model_ids !! model = Some b →
  get_model_id model enable region
  = Ok (if enable && bool_decide (model ∈ cross_region_inference_models)
        then from_option (λ p, p ++ py "." ++ b) b
               (supported_region_prefixes !! region)
        else b).
Proof.
  intros Hb. rewrite (get_model_id_supported _ _ _ _ Hb).
  destruct (supported_region_prefixes !! region); reflexivity.
Qed.

Lemma rewritten_id_injective_table :
  Forall (λ po,
    Forall (λ e,
      Forall (λ m1,
        Forall (λ m2, rewritten_id po e m1 = rewritten_id po e m2 → m1 = m2)
               logical_models)
        logical_models)
      [true; false])
    (None :: (Some <$> region_prefixes)).
Proof. apply (bool_decide_unpack _). vm_compute. exact I. Qed.

(** For a fixed flag and region the resolver is injective: two logical models
    never resolve to the same id. *)
Theorem get_model_id_injective model1 model2 enable region id :
  get_model_id model1 enable region = Ok id →
  get_model_id model2 enable region = Ok id →
  model1 = model2.
Proof.
  intros H1 H2.
  assert (Hin1 : model1 ∈ logical_models).
  { apply (get_model_id_returns_logical model1 enable region).
    eexists. eassumption. }
  assert (Hin2 : model2 ∈ logical_models).
  { apply (get_model_id_returns_logical model2 enable region).
    eexists. eassumption. }
  assert (Hres : ∀ m, m ∈ logical_models →
            get_model_id m enable region
            = Ok (rewritten_id (supported_region_prefixes !! region) enable m)).
  { intros m Hm. apply base_model_ids_dom in Hm as [b Hb].
    rewrite (get_model_id_by_prefix _ _ _ _ Hb). unfold rewritten_id. rewrite Hb.
    reflexivity. }
  assert (Hpo : supported_region_prefixes !! region
                ∈ None :: (Some <$> region_prefixes)).
  { destruct (supported_region_prefixes !! region) as [p|] eqn:Hp; [|left].
    right. apply list_elem_of_fmap_2. exact (region_prefix_values _ _ Hp). }
  assert (He : enable ∈ [true; false]).
  { destruct enable; [left | right; left]. }
  pose proof (Hres _ Hin1) as E1. pose proof (Hres _ Hin2) as E2.
  assert (Heq : rewritten_id (supported_region_prefixes !! region) enable model1
                = rewritten_id (supported_region_prefixes !! region) enable model2).
  { rewrite H1 in E1. rewrite H2 in E2. congruence. }
  pose proof (proj1 (Forall_forall _ _) rewritten_id_injective_table _ Hpo) as T1.
  pose proof (proj1 (Forall_forall _ _) T1 _ He) as T2.
  pose proof (proj1 (Forall_forall _ _) T2 _ Hin1) as T3.
  exact (proj1 (Forall_forall _ _) T3 _ Hin2 Heq).
Qed.

End ResolverMore.

(** ** The file-name helpers on every input *)

Module FilesMore.
Import Files FilesFacts.

(** The document format is always one of the nine of the allow-list; an
    extension of the list is its own format, so that the function is
    idempotent. *)
Theorem supported_format_closed (ext : pystr) :
  _get_converse_supported_format ext ∈ allow_list
  ∧ (ext ∈ allow_list → _get_converse_supported_format ext = ext)
  ∧ (ext ∉ allow_list → _get_converse_supported_format ext = py "txt")
  ∧ _get_converse_supported_format (_get_converse_supported_format ext)
    = _get_converse_supported_format ext.
Proof.
  assert (Hfix : ∀ e, e ∈ allow_list → _get_converse_supported_format e = e).
  { intros e He. rewrite supported_format_spec.
    rewrite (bool_decide_eq_true_2 _ He). reflexivity. }
  split; [apply supported_format_in_allow_list|].
  split; [apply Hfix|].
  split.
  - intros Hout. rewrite supported_format_spec.
    rewrite (bool_decide_eq_false_2 _ Hout). reflexivity.
  - apply Hfix, supported_format_in_allow_list.
Qed.

Lemma remove_invalid_fixed (s : pystr) :
  Forall (λ ch, is_valid_char ch = true) s → remove_invalid s = s.
Proof.
  induction 1 as [|ch s Hch Hs IH]; cbn; [reflexivity|].
  rewrite Hch. f_equal. exact IH.
Qed.

Lemma collapse_from_fixed (in_run : bool) (s : pystr) :
  Forall name_char s →
  single_spaced s →
  (in_run = true → ∀ ch, head s = Some ch → is_space ch = false) →
  collapse_from in_run s = s.
Proof.
  intros Hchars. revert in_run.
  induction Hchars as [|ch s [_ Hch] Hs IH]; intros in_run Hss Hhead;
    [reflexivity|].
  cbn [collapse_from]. destruct Hss as [Hnext Hss].
  destruct (is_space ch) eqn:Hsp.
  - destruct in_run.
    + rewrite (Hhead eq_refl ch eq_refl) in Hsp. discriminate.
    + rewrite (Hch eq_refl). f_equal. apply IH; [exact Hss|].
      intros _ b Hb. destruct s as [|b' s']; [discriminate|].
      injection Hb as ->.
      destruct (is_space b) eqn:Hb; [|reflexivity].
      exfalso. apply Hnext. auto.
  - f_equal. apply IH; [exact Hss | discriminate].
Qed.

Lemma lstrip_fixed (s : pystr) :
  (∀ ch, head s = Some ch → is_space ch = false) → lstrip s = s.
Proof.
  destruct s as [|ch s]; [reflexivity|]. intros H. cbn.
  rewrite (H ch eq_refl). reflexivity.
Qed.

Lemma rstrip_fixed (s : pystr) :
  (∀ ch, last s = Some ch → is_space ch = false) → rstrip s = s.
Proof.
  induction s as [|ch s IH]; [reflexivity|]. intros H. cbn [rstrip].
  destruct s as [|b s'].
  - cbn. rewrite (H ch eq_refl). reflexivity.
  - rewrite IH; [reflexivity|]. intros c Hc. apply H. exact Hc.
Qed.

(** Sanitising a sanitised name changes nothing. *)
Theorem valid_file_name_idempotent (file_name : pystr) :
  _convert_to_valid_file_name (_convert_to_valid_file_name file_name)
  = _convert_to_valid_file_name file_name.
Proof.
  destruct (valid_file_name_spec file_name) as (Hchars & Hss & Hfirst & Hlast & _).
  cbn zeta in *.
  set (name := _convert_to_valid_file_name file_name) in *.
  unfold _convert_to_valid_file_name at 1, strip, collapse_spaces.
  rewrite remove_invalid_fixed.
  - rewrite (collapse_from_fixed false name Hchars Hss) by discriminate.
    rewrite (lstrip_fixed name Hfirst). apply rstrip_fixed. exact Hlast.
  - eapply Forall_impl; [exact Hchars|]. intros ch [Hv _]. exact Hv.
Qed.

(** The sanitised name is empty exactly when the input has no character of
    the allowed class other than whitespace, as for a stem written entirely
    in non-ASCII letters. *)
Theorem valid_file_name_empty_iff (file_name : pystr) :
  _convert_to_valid_file_name file_name = []
  ↔ Forall (λ ch, is_valid_char ch = false ∨ is_space ch = true) file_name.
Proof.
  destruct (valid_file_name_spec file_name) as (_ & _ & Hfirst & _ & Hvis).
  cbn zeta in *.
  set (name := _convert_to_valid_file_name file_name) in *.
  assert (Hfilter : List.filter (λ ch, is_valid_char ch && negb (is_space ch))
                                file_name = []
                    ↔ Forall (λ ch, is_valid_char ch = false ∨ is_space ch = true)
                             file_name).
  { clear. induction file_name as [|ch s IH]; cbn [List.filter].
    - split; [constructor | reflexivity].
    - rewrite Forall_cons.
      destruct (is_valid_char ch) eqn:Hv, (is_space ch) eqn:Hs; cbn [andb negb];
        rewrite <- ?IH; intuition (discriminate || congruence). }
  rewrite <- Hfilter, <- Hvis. split.
  - intros ->. reflexivity.
  - destruct name as [|ch rest]; [reflexivity|].
    rewrite visible_cons, (Hfirst ch eq_refl). discriminate.
Qed.

Lemma split_on_without_sep (sep : N) (s : pystr) :
  sep ∉ s → split_on sep s = [s].
Proof.
  induction s as [|ch s IH]; [reflexivity|].
  rewrite not_elem_of_cons. intros [Hne Hout]. cbn.
  destruct (N.eqb_spec ch sep) as [->|_]; [contradiction|].
  rewrite (IH Hout). reflexivity.
Qed.

(** A path without ["/"], other than [""] and ["."], is its own name. *)
Lemma path_name_plain (p : pystr) :
  47%N ∉ p → p ≠ [] → p ≠ py "." → path_name p = p.
Proof.
  intros Hslash Hne Hdot. unfold path_name.
  rewrite (split_on_without_sep _ _ Hslash). cbn [filter list_filter].
  rewrite decide_True by auto. reflexivity.
Qed.

Lemma rfind_absent (ch : N) (s : pystr) : ch ∉ s → rfind ch s = None.
Proof.
  induction s as [|x s IH]; [reflexivity|].
  rewrite not_elem_of_cons. intros [Hne Hout]. cbn. rewrite (IH Hout).
  destruct (N.eqb_spec x ch) as [->|_]; [contradiction | reflexivity].
Qed.

Lemma rfind_last_occurrence (ch : N) (a b : pystr) :
  ch ∉ b → rfind ch (a ++ ch :: b) = Some (length a).
Proof.
  intros Hb. induction a as [|x a IH]; cbn.
  - rewrite (rfind_absent _ _ Hb), N.eqb_refl. reflexivity.
  - rewrite IH. reflexivity.
Qed.

(** [Path("<stem>.<ext>")]: the stem and the suffix of a plain file name
    whose last dot is neither its first nor its last character. *)
Lemma path_stem_suffix (stem ext : pystr) :
  stem ≠ [] → ext ≠ [] →
  47%N ∉ stem → 47%N ∉ ext → 46%N ∉ ext →
  path_stem (stem ++ 46%N :: ext) = stem
  ∧ path_suffix (stem ++ 46%N :: ext) = 46%N :: ext.
Proof.
  intros Hstem Hext Hs1 Hs2 Hdot.
  assert (Hname : path_name (stem ++ 46%N :: ext) = stem ++ 46%N :: ext).
  { apply path_name_plain.
    - rewrite elem_of_app, elem_of_cons. intros [H|[H|H]]; [auto|discriminate|auto].
    - destruct stem; discriminate.
    - destruct stem as [|x [|y stem']]; [contradiction| |discriminate].
      destruct ext; [contradiction|]. discriminate. }
  assert (Hindex : suffix_index (stem ++ 46%N :: ext) = Some (length stem)).
  { unfold suffix_index. rewrite (rfind_last_occurrence _ _ _ Hdot).
    rewrite length_app. cbn [length].
    destruct stem as [|x stem']; [contradiction|].
    destruct ext as [|y ext']; [contradiction|]. cbn [length].
    replace (0 <? S (length stem')) with true by (symmetry; apply Nat.ltb_lt; lia).
    replace (S (length stem') <? S (length stem') + S (S (length ext')) - 1)
      with true by (symmetry; apply Nat.ltb_lt; lia).
    reflexivity. }
  unfold path_stem, path_suffix. rewrite Hname, Hindex. split.
  - apply take_app_length.
  - apply drop_app_length.
Qed.

(** A plain file name without a dot has no suffix and is its own stem. *)
Lemma path_stem_no_dot (name : pystr) :
  name ≠ [] → 47%N ∉ name → 46%N ∉ name →
  path_stem name = name ∧ path_suffix name = [].
Proof.
  intros Hne Hslash Hdot.
  assert (Hname : path_name name = name).
  { apply path_name_plain; [exact Hslash | exact Hne|].
    intros ->. apply Hdot. left. }
  unfold path_stem, path_suffix, suffix_index.
  rewrite Hname, (rfind_absent _ _ Hdot). auto.
Qed.

End FilesMore.

(** ** The composer on every input *)

Module ComposerMore.
Import Resolver Files Composer.
Import ResolverFacts FilesFacts ComposerFacts ResolverMore FilesMore.

Section More.
Context {NUM : Numeric} {ENV : Environment}.

Lemma split_on_app_sep (sep : N) (a t : pystr) :
  sep ∉ a → split_on sep (a ++ sep :: t) = a :: split_on sep t.
Proof.
  induction a as [|ch a IH]; cbn.
  - intros _. rewrite N.eqb_refl. reflexivity.
  - rewrite not_elem_of_cons. intros [Hne Hout].
    destruct (N.eqb_spec ch sep) as [->|_]; [contradiction|].
    rewrite (IH Hout). reflexivity.
Qed.

(** The format of an image block: ["unknown"] without a media type (absent or
    empty), and otherwise what stands between the first ["/"] of the media
    type and the next one, or the end; the block is a single image block. *)
Theorem image_block_format guardrail grounding_source (c : ContentModel) role_ bytes :
  content_type c = py "image" →
  b64decode (body c) = Ok bytes →
  (opt_truthy (media_type c) = false →
   process_content guardrail grounding_source c role_
   = Ok [ image_wire (py "unknown") bytes ])
  ∧ (∀ kind format rest,
       media_type c = Some (kind ++ 47%N :: format ++ rest) →
       47%N ∉ kind → 47%N ∉ format →
       rest = [] ∨ (∃ t, rest = 47%N :: t) →
       process_content guardrail grounding_source c role_
       = Ok [ image_wire format bytes ]).
Proof.
  intros Hi Hbytes.
  assert (Hbranch : process_content guardrail grounding_source c role_
    = let* format :=
        (if opt_truthy (media_type c)
         then getindex (split_on 47%N (default [] (media_type c))) 1
         else Ok (py "unknown")) in
      let* bytes := b64decode (body c) in
      Ok [ image_wire format bytes ]).
  { unfold process_content.
    rewrite (bool_decide_eq_false_2 (content_type c = py "text"))
      by (rewrite Hi; discriminate).
    rewrite (bool_decide_eq_true_2 _ Hi). reflexivity. }
  rewrite Hbranch. split.
  - intros ->. cbn [rbind]. rewrite Hbytes. reflexivity.
  - intros kind format rest -> Hkind Hformat Hrest.
    assert (Htruthy : opt_truthy (Some (kind ++ 47%N :: format ++ rest)) = true)
      by (destruct kind; reflexivity).
    rewrite Htruthy. cbn [from_option id].
    rewrite (split_on_app_sep _ _ _ Hkind).
    assert (Hhead : split_on 47%N (format ++ rest) !! 0 = Some format).
    { destruct Hrest as [->|[t ->]].
      - rewrite app_nil_r, (split_on_without_sep _ _ Hformat). reflexivity.
      - rewrite (split_on_app_sep _ _ _ Hformat). reflexivity. }
    unfold getindex.
    change ((kind :: split_on 47%N (format ++ rest)) !! 1)
      with (split_on 47%N (format ++ rest) !! 0).
    rewrite Hhead. cbn [rbind]. rewrite Hbytes. reflexivity.
Qed.

(** Without a positive grounding threshold the guardrail and the grounding
    source are not looked at. *)
Lemma process_content_without_grounding guardrail grounding_source
    (c : ContentModel) role_ :
  grounding_active guardrail = false →
  process_content guardrail grounding_source c role_
  = process_content None PNone c role_.
Proof.
  intros Hg. unfold process_content.
  cbn [grounding_active]. rewrite Hg, !andb_false_r. reflexivity.
Qed.

(** The guardrail and the grounding source matter to user text blocks only:
    any other block is translated as without them. *)
Theorem guardrail_only_user_text guardrail grounding_source (c : ContentModel) role_ :
  content_type c ≠ py "text" ∨ role_ ≠ py "user" ∨ grounding_active guardrail = false →
  process_content guardrail grounding_source c role_
  = process_content None PNone c role_.
Proof.
  intros H. unfold process_content.
  case_bool_decide as Ht; [|reflexivity].
  case_bool_decide as Hu; cbn [andb grounding_active]; [|reflexivity].
  destruct H as [H|[H|H]]; [contradiction | contradiction |].
  rewrite H. reflexivity.
Qed.

(** The exception of each failing block: [NotImplementedError] with the type
    in its message for an unsupported type, [IndexError] for an image whose
    media type has no ["/"] (before the body is looked at), [TypeError] for
    an attachment without a file name (before the body is looked at), and the
    decoder's own exception for an image or an attachment that gets as far as
    its body. *)
Theorem process_content_exceptions guardrail grounding_source (c : ContentModel) role_ :
  (unsupported_type c →
   process_content guardrail grounding_source c role_
   = Raise (NotImplementedError
              (py "Unsupported content type: " ++ content_type c)))
  ∧ (content_type c = py "image" →
     ∀ mt, media_type c = Some mt → mt ≠ [] → 47%N ∉ mt →
     process_content guardrail grounding_source c role_ = Raise IndexError)
  ∧ (content_type c = py "attachment" →
     file_name c = None →
     process_content guardrail grounding_source c role_ = Raise TypeError)
  ∧ (content_type c = py "image" →
     opt_truthy (media_type c) = false
     ∨ (∃ mt, media_type c = Some mt ∧ 47%N ∈ mt) →
     ∀ e, b64decode (body c) = Raise e →
     process_content guardrail grounding_source c role_ = Raise e)
  ∧ (content_type c = py "attachment" →
     is_Some (file_name c) →
     ∀ e, b64decode (body c) = Raise e →
     process_content guardrail grounding_source c role_ = Raise e).
Proof.
  split; [|split; [|split; [|split]]].
  - unfold unsupported_type. rewrite !not_elem_of_cons. intros (Ht & Hi & Ha & _).
    unfold process_content.
    rewrite (bool_decide_eq_false_2 _ Ht), (bool_decide_eq_false_2 _ Hi),
            (bool_decide_eq_false_2 _ Ha).
    reflexivity.
  - intros Hi mt Hmt Hne Hslash. unfold process_content.
    rewrite (bool_decide_eq_false_2 (content_type c = py "text"))
      by (rewrite Hi; discriminate).
    rewrite (bool_decide_eq_true_2 _ Hi), Hmt.
    destruct mt as [|ch mt']; [contradiction|].
    cbn [opt_truthy str_truthy from_option id].
    unfold getindex. rewrite (split_on_without_sep _ _ Hslash). reflexivity.
  - intros Ha Hnone. unfold process_content.
    rewrite (bool_decide_eq_false_2 (content_type c = py "text")),
            (bool_decide_eq_false_2 (content_type c = py "image"))
      by (rewrite Ha; discriminate).
    rewrite (bool_decide_eq_true_2 _ Ha), Hnone. reflexivity.
  - intros Hi Hmedia e He. unfold process_content.
    rewrite (bool_decide_eq_false_2 (content_type c = py "text"))
      by (rewrite Hi; discriminate).
    rewrite (bool_decide_eq_true_2 _ Hi).
    destruct Hmedia as [->|(mt & Hmt & Hslash)].
    + cbn [rbind]. rewrite He. reflexivity.
    + rewrite Hmt. destruct mt as [|ch mt']; [inversion Hslash|].
      cbn [opt_truthy str_truthy from_option id]. unfold getindex.
      destruct (split_on 47%N (ch :: mt') !! 1) as [format|] eqn:Hsplit.
      * cbn [rbind]. rewrite He. reflexivity.
      * apply split_on_second in Hsplit. contradiction.
  - intros Ha [path Hpath] e He. unfold process_content.
    rewrite (bool_decide_eq_false_2 (content_type c = py "text")),
            (bool_decide_eq_false_2 (content_type c = py "image"))
      by (rewrite Ha; discriminate).
    rewrite (bool_decide_eq_true_2 _ Ha), Hpath. cbn [Path rbind].
    rewrite He. reflexivity.
Qed.

(** The document block of an attachment named ["<stem>.<ext>"] (a plain
    file name, the extension free of dots): the format comes from the
    extension alone and the name from the stem alone. A name without any dot
    has format ["txt"] and is sanitised as a whole. *)
Theorem attachment_stem_and_extension guardrail grounding_source
    (c : ContentModel) role_ bytes :
  content_type c = py "attachment" →
  b64decode (body c) = Ok bytes →
  (∀ stem ext,
     file_name c = Some (stem ++ 46%N :: ext) →
     stem ≠ [] → ext ≠ [] →
     47%N ∉ stem → 47%N ∉ ext → 46%N ∉ ext →
     process_content guardrail grounding_source c role_
     = Ok [ PDict [ (py "document",
                     PDict [ (py "format",
                              PStr (_get_converse_supported_format ext));
                             (py "name",
                              PStr (_convert_to_valid_file_name stem));
                             (py "source",
                              PDict [ (py "bytes", PBytes bytes) ]) ]) ] ])
  ∧ (∀ name,
       file_name c = Some name →
       name ≠ [] → 47%N ∉ name → 46%N ∉ name →
       process_content guardrail grounding_source c role_
       = Ok [ PDict [ (py "document",
                       PDict [ (py "format", PStr (py "txt"));
                               (py "name",
                                PStr (_convert_to_valid_file_name name));
                               (py "source",
                                PDict [ (py "bytes", PBytes bytes) ]) ]) ] ]).
Proof.
  intros Ha Hbytes.
  assert (Hbranch : ∀ path, file_name c = Some path →
    process_content guardrail grounding_source c role_
    = Ok [ PDict [ (py "document",
                    PDict [ (py "format",
                             PStr (_get_converse_supported_format
                                     (drop 1 (path_suffix path))));
                            (py "name",
                             PStr (_convert_to_valid_file_name (path_stem path)));
                            (py "source",
                             PDict [ (py "bytes", PBytes bytes) ]) ]) ] ]).
  { intros path Hpath. unfold process_content.
    rewrite (bool_decide_eq_false_2 (content_type c = py "text")),
            (bool_decide_eq_false_2 (content_type c = py "image"))
      by (rewrite Ha; discriminate).
    rewrite (bool_decide_eq_true_2 _ Ha), Hpath, Hbytes. reflexivity. }
  split.
  - intros stem ext Hpath Hstem Hext Hs1 Hs2 Hdot.
    rewrite (Hbranch _ Hpath).
    destruct (FilesMore.path_stem_suffix stem ext Hstem Hext Hs1 Hs2 Hdot)
      as [-> ->].
    reflexivity.
  - intros name Hpath Hne Hslash Hdot.
    rewrite (Hbranch _ Hpath).
    destruct (FilesMore.path_stem_no_dot name Hne Hslash Hdot) as [-> ->].
    reflexivity.
Qed.

Lemma rmap_ext {A B} (f g : A → result B) (l : list A) :
  (∀ x, x ∈ l → f x = g x) → rmap f l = rmap g l.
Proof.
  induction l as [|x l IH]; intros H; cbn; [reflexivity|].
  rewrite (H x) by left. rewrite IH; [reflexivity|].
  intros y Hy. apply H. right. exact Hy.
Qed.

Lemma rmap_pure {A B} (f : A → result B) (h : A → B) (l : list A) :
  (∀ x, x ∈ l → f x = Ok (h x)) → rmap f l = Ok (h <$> l).
Proof.
  induction l as [|x l IH]; intros H; cbn; [reflexivity|].
  rewrite (H x) by left. cbn [rbind]. rewrite IH; [reflexivity|].
  intros y Hy. apply H. right. exact Hy.
Qed.

(** The first element that raises decides the exception of the whole. *)
Lemma rmap_first_failure {A B} (f : A → result B) (l1 l2 : list A) (x : A) e :
  (∀ y, y ∈ l1 → returns (f y)) →
  f x = Raise e →
  rmap f (l1 ++ x :: l2) = Raise e.
Proof.
  intros Hl1 Hx. induction l1 as [|y l1 IH]; cbn.
  - rewrite Hx. reflexivity.
  - destruct (Hl1 y) as [b Hb]; [left|]. rewrite Hb. cbn [rbind].
    rewrite IH; [reflexivity|]. intros z Hz. apply Hl1. right. exact Hz.
Qed.

Lemma arg_messages_app guardrail grounding_source pre post :
  arg_messages guardrail grounding_source (pre ++ post)
  = rmap (arg_message guardrail grounding_source)
      (List.filter is_kept pre ++ List.filter is_kept post).
Proof. unfold arg_messages. rewrite List.filter_app. reflexivity. Qed.

(** The messages of a returned request are the turns whose role is neither
    ["system"] nor ["instruction"], in their order, each with its own role
    and, as content, the blocks of its content blocks one after the other. *)
Theorem compose_messages msgs model instruction streaming generation_params
    grounding_source guardrail (r : ConverseApiRequest) :
  compose_args_for_converse_api msgs model instruction streaming
    generation_params grounding_source guardrail = Ok r →
  Forall2
    (λ message wire,
       ∃ parts,
         Forall2 (λ c blocks,
                    process_content guardrail grounding_source c (role message)
                    = Ok blocks)
                 (content message) parts
         ∧ wire = PDict [ (py "role", PStr (role message));
                          (py "content", PList (concat parts)) ])
    (List.filter is_kept msgs) (messages r)
  ∧ length (messages r) = length (List.filter is_kept msgs)
  ∧ length (messages r) ≤ length msgs.
Proof.
  intros Hr. apply compose_Ok in Hr as (ms & popped & id & Hms & _ & _ & ->).
  cbn [messages]. unfold arg_messages in Hms. apply rmap_Ok in Hms.
  assert (Hlen : length ms = length (List.filter is_kept msgs)).
  { symmetry. exact (Forall2_length _ _ _ Hms). }
  split; [|split; [exact Hlen|]].
  - eapply Forall2_impl; [exact Hms|].
    intros message wire Hw. unfold arg_message in Hw.
    apply rbind_Ok in Hw as (parts & Hparts & [= <-]).
    exists parts. split; [apply rmap_Ok; exact Hparts | reflexivity].
  - rewrite Hlen. apply List.filter_length_le.
Qed.

(** A system or instruction turn has no effect on the outcome, wherever it
    stands and whatever it holds; a conversation made of such turns only (or
    of no turn) gives a request without messages. *)
Theorem compose_ignores_filtered_turns model instruction streaming
    generation_params grounding_source guardrail :
  (∀ pre message post,
     role message ∈ [py "system"; py "instruction"] →
     compose_args_for_converse_api (pre ++ message :: post) model instruction
       streaming generation_params grounding_source guardrail
     = compose_args_for_converse_api (pre ++ post) model instruction
         streaming generation_params grounding_source guardrail)
  ∧ (∀ msgs,
       Forall (λ message, role message ∈ [py "system"; py "instruction"]) msgs →
       is_Some (base_model_ids !! model) →
       is_Some (DEFAULT_GENERATION_CONFIG !! py "top_k") →
       ∃ r, compose_args_for_converse_api msgs model instruction streaming
              generation_params grounding_source guardrail = Ok r
          ∧ messages r = []).
Proof.
  assert (Hdrop : ∀ message,
            role message ∈ [py "system"; py "instruction"] →
            is_kept message = false).
  { intros message Hin. unfold is_kept. apply bool_decide_eq_false_2. tauto. }
  split.
  - intros pre message post Hrole.
    unfold compose_args_for_converse_api.
    rewrite !arg_messages_app. cbn [List.filter].
    rewrite (Hdrop _ Hrole). reflexivity.
  - intros msgs Hall Hmodel Hk.
    assert (Hnil : arg_messages guardrail grounding_source msgs = Ok []).
    { unfold arg_messages.
      replace (List.filter is_kept msgs) with (@nil MessageModel); [reflexivity|].
      induction Hall as [|message msgs Hrole _ IH]; [reflexivity|].
      cbn [List.filter]. rewrite (Hdrop _ Hrole). exact IH. }
    destruct (proj2 (compose_returns msgs model instruction streaming
                       generation_params grounding_source guardrail)) as [r Hr].
    { split; [eexists; exact Hnil | auto]. }
    exists r. split; [exact Hr|].
    apply compose_Ok in Hr as (ms & popped & id & Hms & _ & _ & ->).
    rewrite Hnil in Hms. injection Hms as <-. reflexivity.
Qed.

Lemma top_k_not_override : py "top_k" ∉ override_keys.
Proof. apply (bool_decide_unpack _). vm_compute. exact I. Qed.

Lemma override_lookup (gp : GenerationParamsModel) (k : pystr) :
  k ∉ override_keys →
  (list_to_map
     [ (py "maxTokens", max_tokens gp);
       (py "temperature", temperature gp);
       (py "topP", top_p gp);
       (py "stopSequences", stop_sequences gp) ] : gmap pystr pyval) !! k = None.
Proof. intros Hk. apply not_elem_of_list_to_map_1. exact Hk. Qed.

(** The inference configuration of a returned request is the conversion of a
    dict without [top_k] that holds the four explicit generation parameters
    under their camel-case keys and, for every other key, the entry of the
    default configuration; [top_k] travels apart, and is always the default
    one, the [top_k] of explicit generation parameters being ignored. *)
Theorem compose_inference_config msgs model instruction streaming generation_params
    grounding_source guardrail (r : ConverseApiRequest) :
  compose_args_for_converse_api msgs model instruction streaming
    generation_params grounding_source guardrail = Ok r →
  ∃ config default_top_k,
    inference_config r = convert_dict_keys_to_camel_case config
    ∧ DEFAULT_GENERATION_CONFIG !! py "top_k" = Some default_top_k
    ∧ additional_model_request_fields r = {[ py "top_k" := default_top_k ]}
    ∧ config !! py "top_k" = None
    ∧ (∀ gp, generation_params = Some gp →
         config !! py "maxTokens" = Some (max_tokens gp)
         ∧ config !! py "temperature" = Some (temperature gp)
         ∧ config !! py "topP" = Some (top_p gp)
         ∧ config !! py "stopSequences" = Some (stop_sequences gp))
    ∧ (∀ k, k ≠ py "top_k" →
         generation_params = None ∨ k ∉ override_keys →
         config !! k = DEFAULT_GENERATION_CONFIG !! k).
Proof.
  intros Hr. apply compose_Ok in Hr as (ms & popped & id & _ & Hk & _ & ->).
  exists (delete (py "top_k") (merged_inference_config generation_params)), popped.
  cbn [inference_config additional_model_request_fields].
  split; [reflexivity|]. split; [exact Hk|]. split; [reflexivity|].
  split; [apply lookup_delete_eq|]. split.
  - intros gp ->. unfold merged_inference_config.
    assert (Hne : ∀ k, k ∈ override_keys → py "top_k" ≠ k).
    { intros k Hin <-. exact (top_k_not_override Hin). }
    repeat split.
    + rewrite lookup_delete_ne by (apply Hne; set_solver).
      apply lookup_union_Some_l. reflexivity.
    + rewrite lookup_delete_ne by (apply Hne; set_solver).
      apply lookup_union_Some_l. reflexivity.
    + rewrite lookup_delete_ne by (apply Hne; set_solver).
      apply lookup_union_Some_l. reflexivity.
    + rewrite lookup_delete_ne by (apply Hne; set_solver).
      apply lookup_union_Some_l. reflexivity.
  - intros k Hk' Hcase. rewrite lookup_delete_ne by congruence.
    unfold merged_inference_config. apply lookup_union_r.
    destruct generation_params as [gp|]; [|apply lookup_empty].
    destruct Hcase as [[=]|Hout]. exact (override_lookup gp k Hout).
Qed.

(** Which exception a call raises when several things are wrong: the one of
    the first failing block of the first failing kept turn, whatever the
    model; then [KeyError("top_k")] for a default configuration without
    [top_k]; and [ValueError] for an unknown model only when nothing else
    fails. *)
Theorem compose_exception_order model instruction streaming generation_params
    grounding_source guardrail :
  (∀ pre message post before c after e,
     returns (arg_messages guardrail grounding_source pre) →
     (role message ∉ [py "system"; py "instruction"]) →
     content message = before ++ c :: after →
     (∀ c', c' ∈ before →
        returns (process_content guardrail grounding_source c' (role message))) →
     process_content guardrail grounding_source c (role message) = Raise e →
     compose_args_for_converse_api (pre ++ message :: post) model instruction
       streaming generation_params grounding_source guardrail = Raise e)
  ∧ (∀ msgs,
       returns (arg_messages guardrail grounding_source msgs) →
       DEFAULT_GENERATION_CONFIG !! py "top_k" = None →
       compose_args_for_converse_api msgs model instruction streaming
         generation_params grounding_source guardrail
       = Raise (KeyError (py "top_k")))
  ∧ (∀ msgs,
       returns (arg_messages guardrail grounding_source msgs) →
       is_Some (DEFAULT_GENERATION_CONFIG !! py "top_k") →
       model ∉ logical_models →
       compose_args_for_converse_api msgs model instruction streaming
         generation_params grounding_source guardrail
       = Raise (ValueError (py "Unsupported model: " ++ model))).
Proof.
  split; [|split].
  - intros pre message post before c after e Hpre Hkept Hcontent Hbefore Hc.
    unfold compose_args_for_converse_api.
    rewrite arg_messages_app. cbn [List.filter].
    rewrite (proj2 (is_kept_spec message) Hkept).
    rewrite (rmap_first_failure (arg_message guardrail grounding_source)
               (List.filter is_kept pre) (List.filter is_kept post) message e);
      [reflexivity | |].
    + apply rmap_returns. exact Hpre.
    + unfold arg_message. rewrite Hcontent.
      rewrite (rmap_first_failure _ before after c e Hbefore Hc). reflexivity.
  - intros msgs [ms Hms] Hk. unfold compose_args_for_converse_api, getitem.
    rewrite Hms, merged_top_k, Hk. reflexivity.
  - intros msgs [ms Hms] [popped Hk] Hmodel.
    unfold compose_args_for_converse_api, getitem.
    rewrite Hms, merged_top_k, Hk. cbn [rbind].
    rewrite (get_model_id_not_logical model
               ENABLE_BEDROCK_CROSS_REGION_INFERENCE BEDROCK_REGION Hmodel).
    reflexivity.
Qed.

Lemma text_block_wire guardrail grounding_source (c : ContentModel) role_ :
  content_type c = py "text" →
  grounding_active guardrail = false →
  process_content guardrail grounding_source c role_ = Ok [ text_wire role_ c ].
Proof.
  intros Ht Hg. unfold process_content, text_wire.
  rewrite (bool_decide_eq_true_2 _ Ht), Hg, andb_false_r.
  destruct (bool_decide (role_ = py "assistant")); cbn [andb]; [|reflexivity].
  destruct (is_str (body c)); reflexivity.
Qed.

Lemma concat_singletons {A B} (h : A → B) (l : list A) :
  concat ((λ x, [h x]) <$> l) = h <$> l.
Proof. induction l as [|x l IH]; cbn; [reflexivity | f_equal; exact IH]. Qed.

(** A conversation whose kept turns hold text blocks only, composed without
    grounding: every kept turn becomes the message of its text blocks. *)
Lemma arg_messages_text_only guardrail grounding_source msgs :
  grounding_active guardrail = false →
  (∀ message c, message ∈ msgs → is_kept message = true →
                c ∈ content message → content_type c = py "text") →
  arg_messages guardrail grounding_source msgs
  = Ok (text_message <$> List.filter is_kept msgs).
Proof.
  intros Hg Htext. unfold arg_messages. apply rmap_pure.
  intros message Hin. apply list_elem_of_In, filter_In in Hin as [Hin Hkept].
  apply list_elem_of_In in Hin.
  unfold arg_message, text_message.
  rewrite (rmap_pure _ (λ c, [text_wire (role message) c])).
  - cbn [rbind]. rewrite concat_singletons. reflexivity.
  - intros c Hc. apply text_block_wire; [|exact Hg]. eauto.
Qed.

(** The deprecated [compose_args]: its request never has a [guardrailConfig],
    and for a conversation whose kept turns hold text blocks only its messages
    are those turns with their bodies as plain text blocks ([None] for an
    assistant body that is not a [str]). *)
Theorem compose_args_plain msgs model instruction streaming generation_params
    (r : ConverseApiRequest) :
  compose_args msgs model instruction streaming generation_params = Ok r →
  guardrailConfig r = None
  ∧ ((∀ message c, message ∈ msgs → is_kept message = true →
                   c ∈ content message → content_type c = py "text") →
     messages r = text_message <$> List.filter is_kept msgs).
Proof.
  unfold compose_args. intros Hr.
  apply compose_Ok in Hr as (ms & popped & id & Hms & _ & _ & ->).
  split; [reflexivity|].
  intros Htext. cbn [messages].
  rewrite (arg_messages_text_only None PNone msgs eq_refl Htext) in Hms.
  congruence.
Qed.

(** A guardrail without a positive grounding threshold changes nothing but
    the [guardrailConfig] block: the call raises what [compose_args] raises,
    and a returned request agrees with the one of [compose_args] on every
    other field; the grounding source is not used. *)
Theorem compose_without_grounding msgs model instruction streaming
    generation_params grounding_source guardrail :
  grounding_active guardrail = false →
  (∀ e, compose_args_for_converse_api msgs model instruction streaming
          generation_params grounding_source guardrail = Raise e
        ↔ compose_args msgs model instruction streaming generation_params
          = Raise e)
  ∧ (∀ r, compose_args_for_converse_api msgs model instruction streaming
            generation_params grounding_source guardrail = Ok r →
          ∃ r0, compose_args msgs model instruction streaming generation_params
                = Ok r0
              ∧ messages r = messages r0
              ∧ system r = system r0
              ∧ model_id r = model_id r0
              ∧ stream r = stream r0
              ∧ inference_config r = inference_config r0
              ∧ additional_model_request_fields r
                = additional_model_request_fields r0).
Proof.
  intros Hg.
  assert (Hargs : arg_messages guardrail grounding_source msgs
                  = arg_messages None PNone msgs).
  { unfold arg_messages. apply rmap_ext. intros message _.
    unfold arg_message. f_equal. apply rmap_ext. intros c _.
    apply process_content_without_grounding. exact Hg. }
  split.
  - intros e. unfold compose_args, compose_args_for_converse_api.
    rewrite Hargs.
    destruct (arg_messages None PNone msgs) as [ms|e0]; cbn [rbind]; [|tauto].
    destruct (getitem _ _) as [popped|e0]; cbn [rbind]; [|tauto].
    destruct (get_model_id _ _ _) as [id|e0]; cbn [rbind]; [|tauto].
    destruct guardrail as [g|]; [|tauto].
    destruct (str_truthy _ && _); [|tauto].
    destruct streaming; split; discriminate.
  - intros r Hr.
    apply compose_Ok in Hr as (ms & popped & id & Hms & Hk & Hid & ->).
    rewrite Hargs in Hms.
    eexists. split.
    + unfold compose_args. apply compose_Ok. exists ms, popped, id. eauto.
    + cbn. auto 10.
Qed.

End More.
End ComposerMore.

(** ** The price calculator on every input *)

Module PricingMore.
Import Composer Pricing PricingFacts.

Section More.
Context {NUM : Numeric} {ENV : Environment}.

Lemma unit_price_returns (region model field : pystr) :
  returns (unit_price region model field)
  ↔ is_Some (table_entry (py "default") model field).
Proof.
  unfold unit_price. split.
  - intros [p Hp]. apply rbind_Ok in Hp as (fallback & Hd & _).
    apply default_price_table_entry in Hd. eauto.
  - intros [fallback Hd]. apply default_price_table_entry in Hd.
    rewrite Hd. eexists. reflexivity.
Qed.

(** The call returns a price exactly when the default table holds both the
    input and the output price of the model; no entry of the region's table
    can stand in for a missing default. *)
Theorem calculate_price_returns_iff model input_tokens output_tokens region :
  returns (calculate_price model input_tokens output_tokens region)
  ↔ is_Some (table_entry (py "default") model (py "input"))
    ∧ is_Some (table_entry (py "default") model (py "output")).
Proof.
  rewrite <- !(unit_price_returns region). unfold calculate_price. split.
  - intros [p Hp]. apply rbind_Ok in Hp as (ip & Hi & Hp).
    apply rbind_Ok in Hp as (op & Ho & _). split; eexists; eassumption.
  - intros [[ip Hi] [op Ho]]. rewrite Hi, Ho. eexists. reflexivity.
Qed.

(** A default entry of the model that lacks a field makes the call raise
    [KeyError] with the name of that field, ["input"] before ["output"],
    whatever the region's table holds. *)
Theorem calculate_price_missing_field
    (model : pystr) (input_tokens output_tokens : Z) (region : pystr)
    (by_model : gmap pystr (gmap pystr num)) (by_field : gmap pystr num) :
  BEDROCK_PRICING !! py "default" = Some by_model →
  by_model !! model = Some by_field →
  (by_field !! py "input" = None →
   calculate_price model input_tokens output_tokens region
   = Raise (KeyError (py "input")))
  ∧ (is_Some (by_field !! py "input") →
     by_field !! py "output" = None →
     calculate_price model input_tokens output_tokens region
     = Raise (KeyError (py "output"))).
Proof.
  intros Hd Hm.
  assert (Hfield : ∀ field,
            default_price model field
            = match by_field !! field with
              | Some p => Ok p
              | None => Raise (KeyError field)
              end).
  { intros field. unfold default_price, getitem. rewrite Hd. cbn [rbind].
    rewrite Hm. reflexivity. }
  unfold calculate_price, unit_price. split.
  - intros Hi. rewrite Hfield, Hi. reflexivity.
  - intros [p Hi] Ho. rewrite !Hfield, Hi, Ho. reflexivity.
Qed.

Lemma unit_price_unlisted (region model field : pystr) :
  table_entry region model field = None →
  unit_price region model field = unit_price (py "default") model field.
Proof.
  intros Hr. unfold unit_price.
  destruct (default_price model field) as [fallback|e] eqn:Hd; [|reflexivity].
  cbn [rbind]. rewrite !region_price_table_entry, Hr.
  rewrite (proj1 (default_price_table_entry _ _ _) Hd). reflexivity.
Qed.

(** A region the table does not list, or that does not list the model, is
    priced exactly as the region ["default"]. *)
Theorem calculate_price_unlisted_region model input_tokens output_tokens region :
  BEDROCK_PRICING !! region = None
  ∨ (∃ by_model, BEDROCK_PRICING !! region = Some by_model
               ∧ by_model !! model = None) →
  calculate_price model input_tokens output_tokens region
  = calculate_price model input_tokens output_tokens (py "default").
Proof.
  intros Hcase.
  assert (Hnone : ∀ field, table_entry region model field = None).
  { intros field. unfold table_entry.
    destruct Hcase as [->|(by_model & -> & ->)]; reflexivity. }
  unfold calculate_price. rewrite !(unit_price_unlisted region) by apply Hnone.
  reflexivity.
Qed.

(** The fallback is per field: a region that lists the input price of the
    model but not its output price is charged its own input price and the
    default output price. *)
Theorem calculate_price_mixes_tables model input_tokens output_tokens region
    (region_input default_input default_output : num) :
  table_entry region model (py "input") = Some region_input →
  table_entry region model (py "output") = None →
  table_entry (py "default") model (py "input") = Some default_input →
  table_entry (py "default") model (py "output") = Some default_output →
  calculate_price model input_tokens output_tokens region
  = Ok (num_add
          (num_div (num_mul region_input (num_of_int input_tokens)) num_1000)
          (num_div (num_mul default_output (num_of_int output_tokens)) num_1000)).
Proof.
  intros Hri Hro Hdi Hdo.
  destruct (unit_price_spec region model (py "input") _ Hdi) as (ip & Hsi & Hui).
  destruct (unit_price_spec region model (py "output") _ Hdo) as (op & Hso & Huo).
  unfold spec_unit_price in Hsi, Hso.
  rewrite Hri in Hsi. rewrite Hro, Hdo in Hso.
  injection Hsi as <-. injection Hso as <-.
  unfold calculate_price. rewrite Hui, Huo. reflexivity.
Qed.

End More.
End PricingMore.

(** ** The test fixture *)

Module FixtureMore.
Import Files Fixture.

Lemma is_prefix_spec (p s : pystr) :
  is_prefix p s = true ↔ ∃ t, s = p ++ t.
Proof.
  revert s. induction p as [|a p IH]; intros s; cbn.
  - split; [intros _; exists s; reflexivity | reflexivity].
  - destruct s as [|b s].
    + split; [discriminate | intros [t [=]]].
    + rewrite andb_true_iff, N.eqb_eq, IH. split.
      * intros [-> [t ->]]. exists t. reflexivity.
      * intros [t [= -> ->]]. split; [reflexivity | exists t; reflexivity].
Qed.

Lemma split_skip_pass (sep : pystr) (a t cur : pystr) :
  split_skip sep (length a) cur (a ++ t) = split_skip sep 0 cur t.
Proof.
  induction a as [|x a IH]; cbn [length app].
  - reflexivity.
  - cbn [split_skip]. exact IH.
Qed.

Lemma occurs_tail (sep : pystr) (ch : N) (s : pystr) :
  occurs sep s → occurs sep (ch :: s).
Proof. intros (a & b & ->). exists (ch :: a), b. reflexivity. Qed.

(** Without an occurrence of the separator the split has one piece. *)
Lemma split_skip_no_occurrence (sep cur s : pystr) :
  ¬ occurs sep s → split_skip sep 0 cur s = [cur ++ s].
Proof.
  revert cur. induction s as [|ch s IH]; intros cur Hno; cbn [split_skip].
  - rewrite app_nil_r. reflexivity.
  - destruct (is_prefix sep (ch :: s)) eqn:Hp.
    + exfalso. apply Hno. apply is_prefix_spec in Hp as [t Ht].
      exists [], t. exact Ht.
    + rewrite IH.
      * rewrite <- app_assoc. reflexivity.
      * intros Ho. apply Hno, occurs_tail, Ho.
Qed.

(** The split cuts at the first occurrence of the separator. *)
Lemma split_skip_first_occurrence (sep cur pre rest : pystr) :
  sep ≠ [] →
  (∀ a b, pre ++ sep ++ rest = a ++ sep ++ b → length pre ≤ length a) →
  split_skip sep 0 cur (pre ++ sep ++ rest)
  = (cur ++ pre) :: split_skip sep 0 [] rest.
Proof.
  intros Hsep. revert cur. induction pre as [|ch pre IH]; intros cur Hfirst.
  - destruct sep as [|x sep']; [contradiction|].
    cbn [app split_skip].
    rewrite (proj2 (is_prefix_spec (x :: sep') (x :: sep' ++ rest)))
      by (exists rest; reflexivity).
    replace (length (x :: sep') - 1) with (length sep') by (cbn [length]; lia).
    rewrite split_skip_pass, app_nil_r. reflexivity.
  - cbn [app split_skip].
    destruct (is_prefix sep (ch :: pre ++ sep ++ rest)) eqn:Hp.
    + exfalso. apply is_prefix_spec in Hp as [t Ht].
      specialize (Hfirst [] t Ht). cbn in Hfirst. lia.
    + rewrite IH.
      * rewrite <- app_assoc. reflexivity.
      * intros a b Hab.
        specialize (Hfirst (ch :: a) b). cbn in Hfirst.
        rewrite Hab in Hfirst. specialize (Hfirst eq_refl). lia.
Qed.

Lemma rstrip_chars_fixed (chars : list N) (s : pystr) :
  Forall (λ ch, ch ∉ chars) s → rstrip_chars chars s = s.
Proof.
  induction 1 as [|ch s Hch Hs IH]; [reflexivity|]. cbn [rstrip_chars].
  rewrite IH. destruct s; [|reflexivity].
  rewrite (bool_decide_eq_false_2 _ Hch). reflexivity.
Qed.

Lemma lstrip_chars_fixed (chars : list N) (s : pystr) :
  Forall (λ ch, ch ∉ chars) s → lstrip_chars chars s = s.
Proof.
  destruct 1 as [|ch s Hch Hs]; [reflexivity|]. cbn.
  rewrite (bool_decide_eq_false_2 _ Hch). reflexivity.
Qed.

Lemma rstrip_chars_snoc (chars : list N) (s : pystr) (q : N) :
  q ∈ chars → rstrip_chars chars (s ++ [q]) = rstrip_chars chars s.
Proof.
  intros Hq. induction s as [|ch s IH]; cbn [app rstrip_chars].
  - rewrite (bool_decide_eq_true_2 _ Hq). reflexivity.
  - rewrite IH. reflexivity.
Qed.

(** A name between two quotes loses them; a name without quotes is kept. *)
Lemma strip_quotes (name : pystr) :
  34%N ∉ name →
  strip_chars [34%N] (34%N :: name ++ [34%N]) = name
  ∧ strip_chars [34%N] name = name.
Proof.
  intros Hq.
  assert (Hall : Forall (λ ch, ch ∉ [34%N]) name).
  { apply Forall_forall. intros ch Hch Hin.
    apply list_elem_of_singleton in Hin as ->. contradiction. }
  assert (Hin : 34%N ∈ [34%N]) by left.
  unfold strip_chars. split.
  - cbn [lstrip_chars]. rewrite (bool_decide_eq_true_2 _ Hin).
    destruct name as [|ch name'].
    + cbn. rewrite (bool_decide_eq_true_2 _ Hin). reflexivity.
    + cbn [app lstrip_chars].
      rewrite (bool_decide_eq_false_2 (ch ∈ [34%N]))
        by (inversion Hall; assumption).
      change (ch :: name' ++ [34%N]) with ((ch :: name') ++ [34%N]).
      rewrite (rstrip_chars_snoc _ _ _ Hin). apply rstrip_chars_fixed, Hall.
  - rewrite (lstrip_chars_fixed _ _ Hall). apply rstrip_chars_fixed, Hall.
Qed.

Lemma rfind_None (ch : N) (s : pystr) : rfind ch s = None → ch ∉ s.
Proof.
  induction s as [|x s IH]; cbn; [intros _ H; inversion H|].
  destruct (rfind ch s); [discriminate|].
  destruct (N.eqb_spec x ch) as [->|Hne]; [discriminate|].
  intros _. rewrite not_elem_of_cons. split; [congruence | apply IH; reflexivity].
Qed.

Lemma rfind_Some (ch : N) (s : pystr) (i : nat) :
  rfind ch s = Some i →
  ∃ a b, s = a ++ ch :: b ∧ length a = i ∧ ch ∉ b.
Proof.
  revert i. induction s as [|x s IH]; intros i; cbn; [discriminate|].
  destruct (rfind ch s) as [j|] eqn:Hr.
  - intros [= <-]. destruct (IH j eq_refl) as (a & b & -> & <- & Hb).
    exists (x :: a), b. auto.
  - destruct (N.eqb_spec x ch) as [->|Hne]; [|discriminate].
    intros [= <-]. exists [], s. split; [reflexivity|]. split; [reflexivity|].
    apply rfind_None. exact Hr.
Qed.

(** [os.path.basename]: what follows the last ["/"]; it holds no ["/"], and
    the path is a directory part, empty or ending in ["/"], followed by it. *)
Lemma basename_spec (p : pystr) :
  (47%N ∉ basename p)
  ∧ ∃ dir, p = dir ++ basename p ∧ (dir = [] ∨ last dir = Some 47%N).
Proof.
  unfold basename. destruct (rfind 47%N p) as [i|] eqn:Hr.
  - destruct (rfind_Some _ _ _ Hr) as (a & b & -> & <- & Hb).
    assert (Hdrop : drop (S (length a)) (a ++ 47%N :: b) = b).
    { change (a ++ 47%N :: b) with (a ++ [47%N] ++ b).
      rewrite app_assoc.
      replace (S (length a)) with (length (a ++ [47%N]))
        by (rewrite length_app; cbn; lia).
      apply drop_app_length. }
    rewrite Hdrop. split; [exact Hb|].
    exists (a ++ [47%N]). split.
    + rewrite <- app_assoc. reflexivity.
    + right. apply last_snoc.
  - split; [exact (rfind_None _ _ Hr)|]. exists []. auto.
Qed.

Section Fetch.
Variable http_get : pystr → Response.
Variable b64encode : list Byte.byte → pystr.

(** The fixture raises its own [Exception], with the URL in the message,
    exactly when the status code is not 200, whatever the headers. *)
Theorem get_pdf_info_status (url : pystr) :
  (status_code (http_get url) ≠ 200%Z →
   get_pdf_info http_get b64encode url
   = FetchRaise (PlainException (py "Failed to fetch PDF from " ++ url)))
  ∧ (∀ msg, get_pdf_info http_get b64encode url
            = FetchRaise (PlainException msg) →
            status_code (http_get url) ≠ 200%Z).
Proof.
  unfold get_pdf_info. destruct (Z.eqb_spec (status_code (http_get url)) 200) as [He|Hne].
  - split; [contradiction|]. intros msg.
    destruct (opt_truthy _); [destruct (_ !! 1)|]; discriminate.
  - split; [reflexivity | auto].
Qed.

(** Without a [Content-Disposition] header (absent or empty) the file name
    is the part of the URL after its last ["/"]. *)
Theorem get_pdf_info_name_from_url (url : pystr) :
  status_code (http_get url) = 200%Z →
  opt_truthy (content_disposition (http_get url)) = false →
  ∃ name dir,
    get_pdf_info http_get b64encode url
    = Fetched (name, strip (b64encode (response_content (http_get url))))
    ∧ url = dir ++ name
    ∧ (dir = [] ∨ last dir = Some 47%N)
    ∧ 47%N ∉ name.
Proof.
  intros Hs Hcd. destruct (basename_spec url) as (Hslash & dir & Hurl & Hdir).
  exists (basename url), dir. unfold get_pdf_info.
  rewrite Hs, Hcd. cbn. auto.
Qed.

(** A [Content-Disposition] header that has no ["filename="] makes the
    fixture raise [IndexError]: it does not fall back to the URL. *)
Theorem get_pdf_info_header_without_filename (url header : pystr) :
  status_code (http_get url) = 200%Z →
  content_disposition (http_get url) = Some header →
  header ≠ [] →
  ¬ occurs (py "filename=") header →
  get_pdf_info http_get b64encode url = FetchRaise (Builtin IndexError).
Proof.
  intros Hs Hcd Hne Hno. unfold get_pdf_info. rewrite Hs, Hcd.
  destruct header as [|ch header']; [contradiction|].
  cbn [Z.eqb Pos.eqb opt_truthy str_truthy from_option id].
  unfold split_str. rewrite (split_skip_no_occurrence _ _ _ Hno). reflexivity.
Qed.

(** In a header that reads [before ++ "filename=" ++ rest], with no earlier
    and no later ["filename="], the file name is [rest] without the quotes
    around it: a name free of quotes, written between quotes or bare, is
    returned as it is. *)
Theorem get_pdf_info_header_filename (url before rest : pystr) :
  status_code (http_get url) = 200%Z →
  content_disposition (http_get url) = Some (before ++ py "filename=" ++ rest) →
  (∀ a b, before ++ py "filename=" ++ rest = a ++ py "filename=" ++ b →
          length before ≤ length a) →
  ¬ occurs (py "filename=") rest →
  get_pdf_info http_get b64encode url
  = Fetched (strip_chars [34%N] rest,
             strip (b64encode (response_content (http_get url))))
  ∧ (∀ name, 34%N ∉ name →
       rest = 34%N :: name ++ [34%N] ∨ rest = name →
       strip_chars [34%N] rest = name).
Proof.
  intros Hs Hcd Hfirst Hrest. split.
  - unfold get_pdf_info. rewrite Hs, Hcd.
    assert (Htruthy : opt_truthy (Some (before ++ py "filename=" ++ rest)) = true).
    { destruct before; reflexivity. }
    rewrite Htruthy. cbn [Z.eqb Pos.eqb from_option id].
    unfold split_str.
    rewrite (split_skip_first_occurrence (py "filename=") [] before rest)
      by (discriminate || exact Hfirst).
    rewrite (split_skip_no_occurrence _ _ _ Hrest). reflexivity.
  - intros name Hq [->| ->]; apply (strip_quotes name Hq).
Qed.

End Fetch.
End FixtureMore.

(** ** The further properties at concrete inputs *)

Module MoreExamples.
Import Resolver Files Composer Pricing Fixture Sample.
Import ResolverFacts FilesFacts ComposerFacts PricingFacts.
Import ResolverMore FilesMore ComposerMore PricingMore FixtureMore.

Lemma haiku_supported : is_Some (base_model_ids !! haiku).
Proof. apply (bool_decide_unpack _). vm_compute. exact I. Defined.

Lemma sample_top_k : is_Some (DEFAULT_GENERATION_CONFIG !! py "top_k").
Proof. apply (bool_decide_unpack _). vm_compute. exact I. Defined.

Lemma conversation_translates guardrail_ grounding_source :
  grounding_active guardrail_ = false →
  returns (arg_messages guardrail_ grounding_source conversation).
Proof.
  intros Hg. eexists.
  apply arg_messages_text_only; [exact Hg|].
  intros message c Hm Hkept Hc.
  unfold conversation in Hm.
  repeat (apply elem_of_cons in Hm as [->|Hm]);
    [discriminate Hkept | | | inversion Hm];
    apply list_elem_of_singleton in Hc as ->; reflexivity.
Defined.

Lemma conversation_composes instruction streaming gp grounding_source guardrail_ :
  grounding_active guardrail_ = false →
  returns (compose_args_for_converse_api conversation haiku instruction
             streaming gp grounding_source guardrail_).
Proof.
  intros Hg. apply compose_returns.
  split; [exact (conversation_translates _ _ Hg)|].
  split; [exact sample_top_k | exact haiku_supported].
Defined.

Lemma get_model_id_shape_haiku :
  ∃ b, base_model_ids !! haiku = Some b
     ∧ (py "us.anthropic.claude-3-haiku-20240307-v1:0" = b
        ∨ (true = true
           ∧ haiku ∈ cross_region_inference_models
           ∧ ∃ p, p ∈ region_prefixes
                ∧ supported_region_prefixes !! py "us-east-1" = Some p
                ∧ py "us.anthropic.claude-3-haiku-20240307-v1:0"
                  = p ++ py "." ++ b)).
Proof.
  apply (get_model_id_shape haiku true (py "us-east-1")). reflexivity.
Defined.

Lemma get_model_id_injective_haiku : haiku = haiku.
Proof.
  apply (get_model_id_injective haiku haiku true (py "eu-west-3")
           (py "eu.anthropic.claude-3-haiku-20240307-v1:0"));
    reflexivity.
Defined.

Lemma image_block_format_png :
  process_content None PNone (image_block None) (py "user")
  = Ok [ image_wire (py "unknown") [] ]
  ∧ process_content None PNone (image_block (Some (py "image/png"))) (py "user")
    = Ok [ image_wire (py "png") [] ].
Proof.
  split.
  - destruct (image_block_format None PNone (image_block None) (py "user") [])
      as [Hunknown _]; [reflexivity..|].
    apply Hunknown. reflexivity.
  - destruct (image_block_format None PNone
                (image_block (Some (py "image/png"))) (py "user") [])
      as [_ Hformat]; [reflexivity..|].
    apply (Hformat (py "image") (py "png") []).
    + reflexivity.
    + apply (bool_decide_unpack _). vm_compute. exact I.
    + apply (bool_decide_unpack _). vm_compute. exact I.
    + left. reflexivity.
Defined.

Lemma attachment_stem_and_extension_report :
  process_content None PNone (attachment_block (py "report v2.docx")) (py "user")
  = Ok [ PDict [ (py "document",
                  PDict [ (py "format",
                           PStr (_get_converse_supported_format (py "docx")));
                          (py "name",
                           PStr (_convert_to_valid_file_name (py "report v2")));
                          (py "source", PDict [ (py "bytes", PBytes []) ]) ]) ] ].
Proof.
  destruct (attachment_stem_and_extension None PNone
              (attachment_block (py "report v2.docx")) (py "user") [])
    as [Hsplit _]; [reflexivity..|].
  apply (Hsplit (py "report v2") (py "docx")); try reflexivity; try discriminate;
    apply (bool_decide_unpack _); vm_compute; exact I.
Defined.

Lemma guardrail_only_user_text_assistant :
  process_content (Some (guardrail (q 7 10))) (PStr (py "source"))
    (text_block (py "hello")) (py "assistant")
  = process_content None PNone (text_block (py "hello")) (py "assistant").
Proof.
  apply guardrail_only_user_text. right. left. discriminate.
Defined.

Lemma compose_messages_conversation :
  ∃ r, compose_args_for_converse_api conversation haiku None false None PNone None
       = Ok r
     ∧ length (messages r) = 2.
Proof.
  destruct (conversation_composes None false None PNone None eq_refl) as [r Hr].
  exists r. split; [exact Hr|].
  destruct (compose_messages _ _ _ _ _ _ _ r Hr) as (_ & Hlen & _).
  rewrite Hlen. reflexivity.
Defined.

Lemma compose_inference_config_sample :
  ∃ r config,
    compose_args_for_converse_api conversation haiku None false
      (Some generation_params) PNone None = Ok r
    ∧ inference_config r = convert_dict_keys_to_camel_case config
    ∧ config !! py "maxTokens" = Some (PInt 512)
    ∧ config !! py "top_k" = None
    ∧ additional_model_request_fields r = {[ py "top_k" := PInt 250 ]}.
Proof.
  destruct (conversation_composes None false (Some generation_params) PNone None
              eq_refl) as [r Hr].
  destruct (compose_inference_config _ _ _ _ _ _ _ r Hr)
    as (config & v & Hconfig & Hv & Hadd & Hk & Hgp & _).
  exists r, config. split; [exact Hr|]. split; [exact Hconfig|].
  split; [exact (proj1 (Hgp generation_params eq_refl))|].
  split; [exact Hk|].
  rewrite Hadd. f_equal.
  assert (Hv' : DEFAULT_GENERATION_CONFIG !! py "top_k" = Some (PInt 250))
    by reflexivity.
  congruence.
Defined.

Lemma compose_args_plain_conversation :
  ∃ r, compose_args conversation haiku None false None = Ok r
     ∧ guardrailConfig r = None
     ∧ messages r = text_message <$> List.filter is_kept conversation.
Proof.
  destruct (conversation_composes None false None PNone None eq_refl) as [r Hr].
  exists r. split; [exact Hr|].
  destruct (compose_args_plain conversation haiku None false None r Hr)
    as [Hnone Hmsgs].
  split; [exact Hnone|]. apply Hmsgs.
  intros message c Hm Hkept Hc.
  unfold conversation in Hm.
  repeat (apply elem_of_cons in Hm as [->|Hm]);
    [discriminate Hkept | | | inversion Hm];
    apply list_elem_of_singleton in Hc as ->; reflexivity.
Defined.

(** A guardrail with identifier and version and a zero grounding threshold. *)
Lemma compose_without_grounding_zero_threshold :
  ∃ r r0,
    compose_args_for_converse_api conversation haiku None false None
      (PStr (py "source")) (Some (guardrail (q 0 1))) = Ok r
    ∧ compose_args conversation haiku None false None = Ok r0
    ∧ messages r = messages r0.
Proof.
  destruct (conversation_composes None false None (PStr (py "source"))
              (Some (guardrail (q 0 1))) eq_refl) as [r Hr].
  destruct (proj2 (compose_without_grounding conversation haiku None false None
                     (PStr (py "source")) (Some (guardrail (q 0 1))) eq_refl)
              r Hr) as (r0 & Hr0 & Hmsgs & _).
  exists r, r0. auto.
Defined.

Lemma calculate_price_missing_field_opus :
  calculate_price (ENV := env_partial) (py "claude-v3-opus") 1000 500
    (py "us-east-1")
  = Raise (KeyError (py "output")).
Proof.
  refine (proj2 (calculate_price_missing_field (ENV := env_partial)
                   (py "claude-v3-opus") 1000%Z 500%Z (py "us-east-1")
                   (list_to_map
                      [ (py "claude-v3-opus",
                         list_to_map [ (py "input", q 15 1000) ]) ])
                   (list_to_map [ (py "input", q 15 1000) ]) _ _) _ _);
    try reflexivity.
  eexists. reflexivity.
Defined.

Lemma calculate_price_unlisted_region_tokyo :
  calculate_price haiku 1000 500 (py "ap-northeast-1")
  = calculate_price haiku 1000 500 (py "default").
Proof.
  apply calculate_price_unlisted_region. left. reflexivity.
Defined.

Lemma calculate_price_mixes_tables_haiku :
  calculate_price haiku 1000 500 (py "us-east-1")
  = Ok (num_add
          (num_div (num_mul (q 3 10000) (num_of_int 1000)) num_1000)
          (num_div (num_mul (q 125 100000) (num_of_int 500)) num_1000)).
Proof.
  apply (calculate_price_mixes_tables (NUM := rational) (ENV := env)
           haiku 1000%Z 500%Z (py "us-east-1")
           (q 3 10000) (q 25 100000) (q 125 100000));
    reflexivity.
Defined.

Lemma occurs_length (sep s : pystr) : occurs sep s → length sep ≤ length s.
Proof. intros (a & b & ->). rewrite !length_app. lia. Qed.

Lemma get_pdf_info_name_from_url_sample :
  ∃ name dir,
    get_pdf_info sample_get sample_b64encode (py "https://example.com/files/a.pdf")
    = Fetched (name, strip (sample_b64encode []))
    ∧ py "https://example.com/files/a.pdf" = dir ++ name
    ∧ (dir = [] ∨ last dir = Some 47%N)
    ∧ 47%N ∉ name.
Proof.
  apply (get_pdf_info_name_from_url sample_get sample_b64encode
           (py "https://example.com/files/a.pdf")); reflexivity.
Defined.

Lemma get_pdf_info_header_without_filename_sample :
  get_pdf_info sample_get sample_b64encode (py "https://example.com/inline")
  = FetchRaise (Builtin IndexError).
Proof.
  apply (get_pdf_info_header_without_filename sample_get sample_b64encode
           (py "https://example.com/inline") (py "inline"));
    [reflexivity | reflexivity | discriminate |].
  intros Ho. apply occurs_length in Ho. vm_compute in Ho. lia.
Defined.

Lemma get_pdf_info_header_filename_sample :
  get_pdf_info sample_get sample_b64encode (py "https://example.com/download")
  = Fetched (strip_chars [34%N] ([34%N] ++ py "a.pdf" ++ [34%N]),
             strip (sample_b64encode []))
  ∧ strip_chars [34%N] ([34%N] ++ py "a.pdf" ++ [34%N]) = py "a.pdf".
Proof.
  destruct (get_pdf_info_header_filename sample_get sample_b64encode
              (py "https://example.com/download") []
              ([34%N] ++ py "a.pdf" ++ [34%N])) as [Hfetch Hname].
  - reflexivity.
  - reflexivity.
  - intros a b _. apply Nat.le_0_l.
  - intros Ho. apply occurs_length in Ho. vm_compute in Ho. lia.
  - split; [exact Hfetch|]. apply Hname.
    + apply (bool_decide_unpack _). vm_compute. exact I.
    + left. reflexivity.
Defined.

End MoreExamples.
